(** * react-hooks-portal: the learning-progress store and the quiz engine

    A shallow embedding of
    - [LearningProvider] (the learning context: progress map, settings,
      persistence effects, aggregate queries),
    - [QuizModal] (answer selection, navigation, scoring),
    - the callers in [HookLearning] and [NotesPanel] that write progress,
    followed by the properties of the progress-tracking and quiz-scoring
    subsystem.

    Modelling conventions.
    - A JavaScript [number] that holds a count, an index, a number of
      seconds or a millisecond timestamp is a [Z]: these are integers far
      below 2^53, on which double arithmetic ([+], [-], comparison) is exact.
    - A [number] that comes out of a division is an IEEE 754 binary64 value,
      [spec_float] with [prec = 53] and [emax = 1024]; [/] and [*] are the
      correctly rounded [SFdiv] and [SFmul], and [Math.round] is computed
      exactly from the mantissa and the exponent.
    - A [Date] is its millisecond timestamp; [new Date()] reads a clock value
      that the caller of the model passes in as [now].
    - React state is threaded explicitly; an effect is run after the state
      change that invalidates one of its dependencies. *)

From Stdlib Require Import ZArith Lia List Bool.
From Stdlib Require Import SpecFloat.
From stdpp Require Import gmap strings list fin_maps pretty.

(** ** JavaScript numbers *)

Module Num.

Definition number : Type := spec_float.

Definition prec : Z := 53.
Definition emax : Z := 1024.

Definition NaN : number := S754_nan.

(** The double nearest to an integer (exact below 2^53). *)
Definition of_Z (z : Z) : number := binary_normalize prec emax z 0 false.

Definition fdiv (x y : number) : number := SFdiv prec emax x y.
Definition fmul (x y : number) : number := SFmul prec emax x y.

(** [x >= y]; false as soon as one side is NaN. *)
Definition fge (x y : number) : bool := SFleb y x.
(** [x < y] *)
Definition flt (x y : number) : bool := SFltb x y.

(** [Math.round]: the integer nearest to [x], ties towards +infinity;
    NaN, the infinities and the zeros are returned unchanged, and a
    result of zero keeps the sign of [x].  A finite [x] is
    [(-1)^s * m * 2^e]; for [e < 0] the result is [floor (x + 1/2)],
    computed exactly on integers. *)
Definition Math_round (x : number) : number :=
  match x with
  | S754_finite s m e =>
      if (0 <=? e)%Z then x
      else
        let v := cond_Zopp s (Zpos m) in
        let r := ((2 * v + 2 ^ (- e)) / 2 ^ (- e + 1))%Z in
        binary_normalize prec emax r 0 s
  | _ => x
  end.

(** The integer a [number] denotes, when it denotes one. *)
Definition to_Z (x : number) : option Z :=
  match x with
  | S754_zero _ => Some 0%Z
  | S754_finite s m e =>
      if (0 <=? e)%Z then Some (cond_Zopp s (Zpos m) * 2 ^ e)%Z
      else if (Zpos m mod 2 ^ (- e) =? 0)%Z
           then Some (cond_Zopp s (Zpos m / 2 ^ (- e)))%Z
           else None
  | _ => None
  end.

Definition number_eq_dec (x y : number) : {x = y} + {x <> y}.
Proof.
  decide equality;
    try apply Bool.bool_dec; try apply Z.eq_dec; apply Pos.eq_dec.
Defined.

Definition number_eqb (x y : number) : bool :=
  if number_eq_dec x y then true else false.

End Num.

(** Rounding of the exact quotient [a / b] to the nearest integer, ties
    upwards: what the specification writes [round (a / b)]. *)
Definition round_div (a b : Z) : Z := ((2 * a + b) / (2 * b))%Z.

(** ** QuizModal.tsx *)

Module QuizModal.
Import Num.

Record Question := {
  q_id : string;
  q_question : string;
  q_options : list string;
  correctAnswer : Z;
  q_explanation : string
}.

(** The component state: [useState(0)], [useState<number[]>([])],
    [useState(false)], [useState(false)].  An array slot that was never
    assigned reads [undefined], here [None]. *)
Record State := {
  currentQuestion : Z;
  selectedAnswers : list (option Z);
  showResults : bool;
  quizCompleted : bool
}.

Definition initial : State :=
  {| currentQuestion := 0; selectedAnswers := [];
     showResults := false; quizCompleted := false |}.

(** [a[i]] for an array with holes; out of range reads [undefined]. *)
Definition array_get (a : list (option Z)) (i : nat) : option Z :=
  mjoin (a !! i).

(** [a[i] = v] on a copy: in range it overwrites, past the end the array
    grows and the slots in between stay unassigned. *)
Definition array_set (a : list (option Z)) (i : nat) (v : Z)
  : list (option Z) :=
  if (i <? length a)%nat then <[i := Some v]> a
  else a ++ replicate (i - length a) None ++ [Some v].

Definition handleAnswerSelect (answerIndex : Z) (st : State) : State :=
  let newAnswers :=
    if (0 <=? currentQuestion st)%Z
    then array_set (selectedAnswers st) (Z.to_nat (currentQuestion st))
           answerIndex
    else selectedAnswers st in
  {| currentQuestion := currentQuestion st;
     selectedAnswers := newAnswers;
     showResults := showResults st;
     quizCompleted := quizCompleted st |}.

(** The body of the [forEach] callback, with the running counter
    [correct] and the element index made explicit. *)
Fixpoint forEach_correct (selectedAnswers : list (option Z))
    (questions : list Question) (index : nat) (correct : Z) : Z :=
  match questions with
  | [] => correct
  | question :: rest =>
      forEach_correct selectedAnswers rest (S index)
        (if decide (array_get selectedAnswers index
                    = Some (correctAnswer question))
         then correct + 1 else correct)%Z
  end.

Definition calculateScore (questions : list Question)
    (selectedAnswers : list (option Z)) : number :=
  let correct := forEach_correct selectedAnswers questions 0 0%Z in
  Math_round
    (fmul (fdiv (of_Z correct) (of_Z (Z.of_nat (length questions))))
         (of_Z 100)).

(** [nextQuestion] returns the next state and, when it finishes the quiz,
    the score handed to [onComplete]. *)
Definition nextQuestion (questions : list Question) (st : State)
  : State * option number :=
  if (currentQuestion st <? Z.of_nat (length questions) - 1)%Z then
    ({| currentQuestion := currentQuestion st + 1;
        selectedAnswers := selectedAnswers st;
        showResults := showResults st;
        quizCompleted := quizCompleted st |}, None)
  else
    ({| currentQuestion := currentQuestion st;
        selectedAnswers := selectedAnswers st;
        showResults := true;
        quizCompleted := true |},
     Some (calculateScore questions (selectedAnswers st))).

Definition previousQuestion (st : State) : State :=
  if (0 <? currentQuestion st)%Z then
    {| currentQuestion := currentQuestion st - 1;
       selectedAnswers := selectedAnswers st;
       showResults := showResults st;
       quizCompleted := quizCompleted st |}
  else st.

Definition resetQuiz (st : State) : State := initial.

End QuizModal.

(** ** LearningContext.tsx *)

Module LearningContext.
Import Num.

Definition Date : Type := Z.

Record ProgressRecord := {
  completed : bool;
  timeSpent : Z;
  lastVisited : Date;
  notes : string;
  bookmarked : bool
}.

(** [interface LearningProgress { [hookId: string]: ... }] *)
Abbreviation LearningProgress := (gmap string ProgressRecord).

(** [Partial<LearningProgress[string]>]: a key that is present carries a
    value of the field's type, a key that is absent is [None].  (A key set
    to [undefined], which the type also admits, is not used by any caller
    and is not modelled.) *)
Record ProgressUpdate := {
  u_completed : option bool;
  u_timeSpent : option Z;
  u_lastVisited : option Date;
  u_notes : option string;
  u_bookmarked : option bool
}.

Definition no_update : ProgressUpdate :=
  {| u_completed := None; u_timeSpent := None; u_lastVisited := None;
     u_notes := None; u_bookmarked := None |}.

Inductive Theme := Light | Dark | Auto.
Inductive Difficulty := Beginner | Intermediate | Advanced | All.

Record LearningSettings := {
  theme : Theme;
  difficulty : Difficulty;
  showHints : bool;
  autoSave : bool;
  soundEnabled : bool
}.

Record SettingsUpdate := {
  s_theme : option Theme;
  s_difficulty : option Difficulty;
  s_showHints : option bool;
  s_autoSave : option bool;
  s_soundEnabled : option bool
}.

Definition no_settings_update : SettingsUpdate :=
  {| s_theme := None; s_difficulty := None; s_showHints := None;
     s_autoSave := None; s_soundEnabled := None |}.

Definition default_settings : LearningSettings :=
  {| theme := Light; difficulty := All; showHints := true;
     autoSave := true; soundEnabled := false |}.

(** The literal that opens the merged record in [updateProgress]. *)
Definition default_record (now : Date) : ProgressRecord :=
  {| completed := false; timeSpent := 0; lastVisited := now;
     notes := ""; bookmarked := false |}.

(** [{...base, ...prev[hookId]}]: spreading [undefined] adds nothing, and
    a stored record carries all five keys. *)
Definition spread_record (base : ProgressRecord)
    (r : option ProgressRecord) : ProgressRecord :=
  default base r.

(** [{...base, ...updates}] *)
Definition spread_update (base : ProgressRecord) (updates : ProgressUpdate)
  : ProgressRecord :=
  {| completed := default (completed base) (u_completed updates);
     timeSpent := default (timeSpent base) (u_timeSpent updates);
     lastVisited := default (lastVisited base) (u_lastVisited updates);
     notes := default (notes base) (u_notes updates);
     bookmarked := default (bookmarked base) (u_bookmarked updates) |}.

(** The updater that [updateProgress] hands to [setProgress]. *)
Definition updateProgress (hookId : string) (updates : ProgressUpdate)
    (now : Date) (prev : LearningProgress) : LearningProgress :=
  <[hookId :=
      spread_update (spread_record (default_record now) (prev !! hookId))
        updates]> prev.

(** The updater that [updateSettings] hands to [setSettings]. *)
Definition updateSettings (updates : SettingsUpdate)
    (prev : LearningSettings) : LearningSettings :=
  {| theme := default (theme prev) (s_theme updates);
     difficulty := default (difficulty prev) (s_difficulty updates);
     showHints := default (showHints prev) (s_showHints updates);
     autoSave := default (autoSave prev) (s_autoSave updates);
     soundEnabled := default (soundEnabled prev) (s_soundEnabled updates) |}.

(** [Object.values(progress)]; the two aggregates below do not depend on
    the order of the values. *)
Definition Object_values (progress : LearningProgress)
  : list ProgressRecord :=
  (map_to_list progress).*2.

Definition totalHooks : Z := 16.

Definition getCompletionPercentage (progress : LearningProgress) : number :=
  let completedHooks :=
    Z.of_nat (length (filter (λ p, completed p = true)
                        (Object_values progress))) in
  Math_round (fmul (fdiv (of_Z completedHooks) (of_Z totalHooks)) (of_Z 100)).

Definition getTotalTimeSpent (progress : LearningProgress) : Z :=
  foldl (λ total p, total + timeSpent p)%Z 0%Z (Object_values progress).

(** *** Durable storage and the persistence effects *)

(** [localStorage] restricted to the two keys of the provider;
    [Some x] is the entry holding [JSON.stringify(x)]. *)
Record Storage := {
  learning_progress : option LearningProgress;
  learning_settings : option LearningSettings
}.

Inductive storage_call :=
| setItem_progress (p : LearningProgress)
| setItem_settings (s : LearningSettings)
| removeItem_progress.

Definition storage_apply (st : Storage) (c : storage_call) : Storage :=
  match c with
  | setItem_progress p =>
      {| learning_progress := Some p;
         learning_settings := learning_settings st |}
  | setItem_settings s =>
      {| learning_progress := learning_progress st;
         learning_settings := Some s |}
  | removeItem_progress =>
      {| learning_progress := None;
         learning_settings := learning_settings st |}
  end.

Record Provider := {
  progress : LearningProgress;
  settings : LearningSettings;
  localStorage : Storage
}.

(** The lazy initialisers of the two [useState] calls. *)
Definition load_progress (s : Storage) : LearningProgress :=
  default ∅ (learning_progress s).
Definition load_settings (s : Storage) : LearningSettings :=
  default default_settings (learning_settings s).

(** The storage calls of the two [useEffect]s after a render.  The first
    effect depends on [[progress, settings.autoSave]], the second on
    [[settings]]; [progress_dep] and [settings_dep] tell whether the state
    setter installed a new object, [autoSave_before] is the flag of the
    previous render. *)
Definition effects (progress_dep settings_dep : bool)
    (autoSave_before : bool) (progress : LearningProgress)
    (settings : LearningSettings) : list storage_call :=
  (if progress_dep || negb (Bool.eqb autoSave_before (autoSave settings))
   then (if autoSave settings then [setItem_progress progress] else [])
   else [])
  ++ (if settings_dep then [setItem_settings settings] else []).

Definition commit (progress : LearningProgress)
    (settings : LearningSettings) (storage : Storage)
    (calls : list storage_call) : Provider * list storage_call :=
  ({| progress := progress; settings := settings;
      localStorage := foldl storage_apply storage calls |}, calls).

(** Mounting the provider: both initialisers, then both effects. *)
Definition mount (storage : Storage) : Provider * list storage_call :=
  let progress := load_progress storage in
  let settings := load_settings storage in
  commit progress settings storage
    (effects true true (autoSave settings) progress settings).

(** A call of [updateProgress] followed by the render it causes (calls
    are taken one per render; several calls batched into one render persist
    once, with the map after the last of them). *)
Definition call_updateProgress (hookId : string) (updates : ProgressUpdate)
    (now : Date) (st : Provider) : Provider * list storage_call :=
  let progress' := updateProgress hookId updates now (progress st) in
  commit progress' (settings st) (localStorage st)
    (effects true false (autoSave (settings st)) progress' (settings st)).

(** A call of [updateSettings] followed by the render it causes. *)
Definition call_updateSettings (updates : SettingsUpdate) (st : Provider)
  : Provider * list storage_call :=
  let settings' := updateSettings updates (settings st) in
  commit (progress st) settings' (localStorage st)
    (effects false true (autoSave (settings st)) (progress st) settings').

(** A call of [resetProgress]: [setProgress({})], the synchronous
    [removeItem], then the render. *)
Definition call_resetProgress (st : Provider)
  : Provider * list storage_call :=
  commit ∅ (settings st) (localStorage st)
    (removeItem_progress
       :: effects true false (autoSave (settings st)) ∅ (settings st)).

End LearningContext.

(** ** HookLearning.tsx and NotesPanel.tsx: the writers of progress *)

Module HookLearning.
Import Num LearningContext.

(** Truthiness of a string. *)
Definition truthy (s : string) : bool := bool_decide (s ≠ "").

(** The effect on [selectedHook]: returns the value given to
    [setSessionStartTime] and the new progress map. *)
Definition effect_open (selectedHook : string) (now : Date)
    (prev : LearningProgress) : option Date * LearningProgress :=
  if truthy selectedHook then
    (Some now,
     updateProgress selectedHook
       {| u_completed := None; u_timeSpent := None;
          u_lastVisited := Some now; u_notes := None;
          u_bookmarked := None |} now prev)
  else (None, prev).

(** The cleanup of that effect.  [sessionStartTime] and [progress] are the
    values its closure captured; [prev] is the map the updater receives.
    [Math.floor] of the elapsed milliseconds over 1000 is the floor
    division of [Z]. *)
Definition effect_cleanup (selectedHook : string)
    (sessionStartTime : option Date) (progress : LearningProgress)
    (now : Date) (prev : LearningProgress) : LearningProgress :=
  match sessionStartTime with
  | Some start =>
      if truthy selectedHook then
        let timeSpent' := ((now - start) / 1000)%Z in
        updateProgress selectedHook
          {| u_completed := None;
             u_timeSpent :=
               Some (default 0 (timeSpent <$> progress !! selectedHook)
                     + timeSpent')%Z;
             u_lastVisited := None; u_notes := None;
             u_bookmarked := None |} now prev
      else prev
  | None => prev
  end.

Definition toggleBookmark (selectedHook : string)
    (progress : LearningProgress) (now : Date) (prev : LearningProgress)
  : LearningProgress :=
  if truthy selectedHook then
    let isBookmarked :=
      default false (bookmarked <$> progress !! selectedHook) in
    updateProgress selectedHook
      {| u_completed := None; u_timeSpent := None; u_lastVisited := None;
         u_notes := None; u_bookmarked := Some (negb isBookmarked) |}
      now prev
  else prev.

Definition markAsCompleted (selectedHook : string) (now : Date)
    (prev : LearningProgress) : LearningProgress :=
  if truthy selectedHook then
    updateProgress selectedHook
      {| u_completed := Some true; u_timeSpent := None;
         u_lastVisited := None; u_notes := None; u_bookmarked := None |}
      now prev
  else prev.

Definition handleQuizComplete (selectedHook : string) (score : number)
    (now : Date) (prev : LearningProgress) : LearningProgress :=
  if truthy selectedHook then
    updateProgress selectedHook
      {| u_completed := Some (fge score (of_Z 70)); u_timeSpent := None;
         u_lastVisited := None; u_notes := None; u_bookmarked := None |}
      now prev
  else prev.

(** [NotesPanel.saveNotes] *)
Definition saveNotes (hookId : string) (notes : string) (now : Date)
    (prev : LearningProgress) : LearningProgress :=
  updateProgress hookId
    {| u_completed := None; u_timeSpent := None; u_lastVisited := None;
       u_notes := Some notes; u_bookmarked := None |} now prev.

(** The user-interface events that write progress.  An event handler sees
    the progress of the latest render; the cleanup carries the values its
    closure captured. *)
Inductive action :=
| Open (selectedHook : string)
| Cleanup (selectedHook : string) (sessionStartTime : option Date)
    (progress : LearningProgress)
| ToggleBookmark (selectedHook : string)
| MarkAsCompleted (selectedHook : string)
| QuizComplete (selectedHook : string) (score : number)
| SaveNotes (hookId : string) (notes : string).

Definition perform (now : Date) (a : action) (prev : LearningProgress)
  : LearningProgress :=
  match a with
  | Open h => (effect_open h now prev).2
  | Cleanup h start seen => effect_cleanup h start seen now prev
  | ToggleBookmark h => toggleBookmark h prev now prev
  | MarkAsCompleted h => markAsCompleted h now prev
  | QuizComplete h score => handleQuizComplete h score now prev
  | SaveNotes h n => saveNotes h n now prev
  end.

Definition run (tr : list (Date * action)) (p : LearningProgress)
  : LearningProgress :=
  foldl (λ p e, perform e.1 e.2 p) p tr.

End HookLearning.

Import Num QuizModal LearningContext HookLearning.

(** ** data/hooks.ts: the catalog of topics *)

Module Catalog.

(** [interface Hook]; [category] and [difficulty] are string literals. *)
Record Hook := {
  hook_id : string;
  hook_name : string;
  hook_category : string;
  hook_description : string;
  hook_icon : string;
  hook_difficulty : string
}.

Definition hooks : list Hook := [
  {| hook_id := "useState"; hook_name := "useState";
     hook_category := "basic";
     hook_description :=
       "Manage component state in functional components";
     hook_icon := "database"; hook_difficulty := "beginner" |};
  {| hook_id := "useEffect"; hook_name := "useEffect";
     hook_category := "basic";
     hook_description :=
       "Perform side effects in functional components";
     hook_icon := "zap"; hook_difficulty := "beginner" |};
  {| hook_id := "useContext"; hook_name := "useContext";
     hook_category := "basic";
     hook_description :=
       "Access React context values without prop drilling";
     hook_icon := "share-2"; hook_difficulty := "intermediate" |};
  {| hook_id := "useReducer"; hook_name := "useReducer";
     hook_category := "advanced";
     hook_description :=
       "Manage complex state logic with reducer functions";
     hook_icon := "settings"; hook_difficulty := "intermediate" |};
  {| hook_id := "useCallback"; hook_name := "useCallback";
     hook_category := "advanced";
     hook_description :=
       "Memoize callback functions for performance optimization";
     hook_icon := "cpu"; hook_difficulty := "advanced" |};
  {| hook_id := "useMemo"; hook_name := "useMemo";
     hook_category := "advanced";
     hook_description :=
       "Memoize expensive calculations and prevent unnecessary re-renders";
     hook_icon := "brain"; hook_difficulty := "advanced" |};
  {| hook_id := "useRef"; hook_name := "useRef";
     hook_category := "basic";
     hook_description :=
       "Access DOM elements and persist values across renders";
     hook_icon := "target"; hook_difficulty := "intermediate" |};
  {| hook_id := "useImperativeHandle"; hook_name := "useImperativeHandle";
     hook_category := "advanced";
     hook_description :=
       "Customize the instance value exposed to parent components";
     hook_icon := "link"; hook_difficulty := "advanced" |};
  {| hook_id := "useLayoutEffect"; hook_name := "useLayoutEffect";
     hook_category := "advanced";
     hook_description :=
       "Synchronous version of useEffect for DOM mutations";
     hook_icon := "layout"; hook_difficulty := "advanced" |};
  {| hook_id := "useDebugValue"; hook_name := "useDebugValue";
     hook_category := "advanced";
     hook_description :=
       "Display custom labels for custom hooks in React DevTools";
     hook_icon := "bug"; hook_difficulty := "advanced" |};
  {| hook_id := "useId"; hook_name := "useId";
     hook_category := "basic";
     hook_description :=
       "Generate unique IDs for accessibility attributes";
     hook_icon := "hash"; hook_difficulty := "beginner" |};
  {| hook_id := "useDeferredValue"; hook_name := "useDeferredValue";
     hook_category := "advanced";
     hook_description :=
       "Defer updates to improve performance in React 18";
     hook_icon := "clock"; hook_difficulty := "advanced" |};
  {| hook_id := "useTransition"; hook_name := "useTransition";
     hook_category := "advanced";
     hook_description :=
       "Mark state updates as non-urgent transitions";
     hook_icon := "arrow-right"; hook_difficulty := "advanced" |};
  {| hook_id := "useSyncExternalStore"; hook_name := "useSyncExternalStore";
     hook_category := "advanced";
     hook_description :=
       "Subscribe to external data sources safely";
     hook_icon := "database"; hook_difficulty := "advanced" |};
  {| hook_id := "useInsertionEffect"; hook_name := "useInsertionEffect";
     hook_category := "advanced";
     hook_description :=
       "Insert styles before DOM mutations for CSS-in-JS libraries";
     hook_icon := "palette"; hook_difficulty := "advanced" |};
  {| hook_id := "custom"; hook_name := "Custom Hooks";
     hook_category := "custom";
     hook_description :=
       "Create reusable stateful logic with custom hooks";
     hook_icon := "wrench"; hook_difficulty := "advanced" |}
].

End Catalog.

(** ** HookLearning.tsx: moving between topics

    The component reads the imported catalog; here the catalog is the
    argument [hooks]. *)

Module Navigation.
Import Catalog.

(** [hooks.find(h => h.id === selectedHook)] *)
Definition currentHook (hooks : list Hook) (selectedHook : string)
  : option Hook :=
  snd <$> list_find (λ h, hook_id h = selectedHook) hooks.

(** [hooks.findIndex(h => h.id === selectedHook)], -1 when absent. *)
Definition currentIndex (hooks : list Hook) (selectedHook : string) : Z :=
  match list_find (λ h, hook_id h = selectedHook) hooks with
  | Some (i, _) => Z.of_nat i
  | None => (-1)%Z
  end.

(** [hooks[i]]; [undefined] outside the array. *)
Definition hook_at (hooks : list Hook) (i : Z) : option Hook :=
  if (i <? 0)%Z then None else hooks !! Z.to_nat i.

Definition prevHook (hooks : list Hook) (selectedHook : string)
  : option Hook :=
  let currentIndex := currentIndex hooks selectedHook in
  if (0 <? currentIndex)%Z then hook_at hooks (currentIndex - 1) else None.

Definition nextHook (hooks : list Hook) (selectedHook : string)
  : option Hook :=
  let currentIndex := currentIndex hooks selectedHook in
  if (currentIndex <? Z.of_nat (length hooks) - 1)%Z
  then hook_at hooks (currentIndex + 1) else None.

(** The two buttons of the bottom navigation:
    [prevHook && onHookSelect(prevHook.id)] and the same for [nextHook];
    the result is the selected topic afterwards. *)
Definition pressPrevious (hooks : list Hook) (selectedHook : string)
  : string :=
  match prevHook hooks selectedHook with
  | Some h => hook_id h
  | None => selectedHook
  end.

Definition pressNext (hooks : list Hook) (selectedHook : string) : string :=
  match nextHook hooks selectedHook with
  | Some h => hook_id h
  | None => selectedHook
  end.

End Navigation.

(** ** Dashboard.tsx *)

Module Dashboard.
Import Num LearningContext Catalog Navigation.

(** [progress[hookId]?.completed] as a condition. *)
Definition is_completed (progress : LearningProgress) (hookId : string)
  : bool :=
  default false (completed <$> progress !! hookId).

Definition completedHooks (progress : LearningProgress) : Z :=
  Z.of_nat (length (filter (λ p, completed p = true)
                      (Object_values progress))).

Definition bookmarkedHooks (progress : LearningProgress) : Z :=
  Z.of_nat (length (filter (λ p, bookmarked p = true)
                      (Object_values progress))).

(** For a whole number of seconds below 2^53: [Math.floor(x / d)] is the
    floor division of [Z], [%] is the remainder with the sign of the
    dividend, and a template prints the integer in decimal.  (Beyond 2^53
    the doubles no longer hold every integer, and from 1e21 on a number is
    printed with an exponent.) *)
Definition formatTime (seconds : Z) : string :=
  let hours := (seconds / 3600)%Z in
  let minutes := (Z.rem seconds 3600 / 60)%Z in
  if (0 <? hours)%Z
  then pretty hours +:+ "h " +:+ pretty minutes +:+ "m"
  else pretty minutes +:+ "m".

(** One [for] loop of [getNextRecommended]: the first id that is not
    completed. *)
Definition first_uncompleted (progress : LearningProgress)
    (ids : list string) : option string :=
  find (λ hookId, negb (is_completed progress hookId)) ids.

Definition basicHooks : list string := ["useState"; "useEffect"; "useRef"].
Definition intermediateHooks : list string := ["useContext"; "useReducer"].
Definition advancedHooks : list string := ["useCallback"; "useMemo"].

Definition getNextRecommended (hooks : list Hook)
    (progress : LearningProgress) : option Hook :=
  match first_uncompleted progress basicHooks with
  | Some hookId => currentHook hooks hookId
  | None =>
      match first_uncompleted progress intermediateHooks with
      | Some hookId => currentHook hooks hookId
      | None =>
          match first_uncompleted progress advancedHooks with
          | Some hookId => currentHook hooks hookId
          | None => hooks !! 0
          end
      end
  end.

(** The [hooks] fields of the three entries of [learningPaths]. *)
Definition learningPaths : list (list string) :=
  [["useState"; "useEffect"; "useRef"];
   ["useContext"; "useReducer"; "custom"];
   ["useCallback"; "useMemo"; "useLayoutEffect"]].

Definition getPathProgress (progress : LearningProgress)
    (pathHooks : list string) : number :=
  let completed :=
    Z.of_nat (length (filter (λ hookId, is_completed progress hookId = true)
                        pathHooks)) in
  Math_round
    (fmul (fdiv (of_Z completed) (of_Z (Z.of_nat (length pathHooks))))
          (of_Z 100)).

(** [arr.indexOf(x)], -1 when absent. *)
Definition indexOf (arr : list string) (x : string) : Z :=
  match list_find (λ y, y = x) arr with
  | Some (i, _) => Z.of_nat i
  | None => (-1)%Z
  end.

(** [arr.filter((date, index, arr) => arr.indexOf(date) === index)] *)
Definition first_occurrences (arr : list string) : list string :=
  (filter (λ ix, indexOf arr ix.2 = Z.of_nat ix.1) (imap pair arr)).*2.

Section Streak.
(** [new Date(d).toDateString()]: the calendar day of a timestamp in the
    time zone of the browser. *)
Variable toDateString : Date → string.

(** A [Date] is truthy, so [filter(p => p.lastVisited)] keeps every
    record. *)
Definition getStreakDays (progress : LearningProgress) : Z :=
  let recentDays :=
    Z.of_nat
      (length
         (first_occurrences
            ((λ p, toDateString (lastVisited p))
               <$> Object_values progress))) in
  Z.min recentDays 7.

End Streak.

End Dashboard.

(** ** NotesPanel.tsx *)

Module NotesPanel.
Import LearningContext HookLearning.

(** [useState('')] and [useState(false)]. *)
Record Editor := {
  editor_notes : string;
  hasUnsavedChanges : bool
}.

Definition editor_initial : Editor :=
  {| editor_notes := ""; hasUnsavedChanges := false |}.

(** The effect on [[hookId, progress]]; [notes || ''] is [notes]. *)
Definition load_effect (hookId : string) (progress : LearningProgress)
    (ed : Editor) : Editor :=
  if truthy hookId then
    match progress !! hookId with
    | Some r => {| editor_notes := notes r; hasUnsavedChanges := false |}
    | None => ed
    end
  else ed.

Definition handleNotesChange (value : string) (ed : Editor) : Editor :=
  {| editor_notes := value; hasUnsavedChanges := true |}.

(** [saveNotes] of the panel: the call of [updateProgress] with the text of
    the editor, and the flag. *)
Definition save (hookId : string) (now : Date) (ed : Editor)
    (prev : LearningProgress) : LearningProgress * Editor :=
  (saveNotes hookId (editor_notes ed) now prev,
   {| editor_notes := editor_notes ed; hasUnsavedChanges := false |}).

End NotesPanel.

(** ** SettingsModal.tsx *)

Module SettingsModal.
Import LearningContext.

Definition toggle_showHints (st : Provider) : Provider * list storage_call :=
  call_updateSettings
    {| s_theme := None; s_difficulty := None;
       s_showHints := Some (negb (showHints (settings st)));
       s_autoSave := None; s_soundEnabled := None |} st.

Definition toggle_autoSave (st : Provider) : Provider * list storage_call :=
  call_updateSettings
    {| s_theme := None; s_difficulty := None; s_showHints := None;
       s_autoSave := Some (negb (autoSave (settings st)));
       s_soundEnabled := None |} st.

Definition toggle_soundEnabled (st : Provider)
  : Provider * list storage_call :=
  call_updateSettings
    {| s_theme := None; s_difficulty := None; s_showHints := None;
       s_autoSave := None;
       s_soundEnabled := Some (negb (soundEnabled (settings st))) |} st.

Definition select_theme (value : Theme) (st : Provider)
  : Provider * list storage_call :=
  call_updateSettings
    {| s_theme := Some value; s_difficulty := None; s_showHints := None;
       s_autoSave := None; s_soundEnabled := None |} st.

Definition select_difficulty (value : Difficulty) (st : Provider)
  : Provider * list storage_call :=
  call_updateSettings
    {| s_theme := None; s_difficulty := Some value; s_showHints := None;
       s_autoSave := None; s_soundEnabled := None |} st.

(** [handleResetProgress]; [confirmed] is the answer to [window.confirm]. *)
Definition handleResetProgress (confirmed : bool) (st : Provider)
  : Provider * list storage_call :=
  if confirmed then call_resetProgress st else (st, []).

End SettingsModal.

(** ** The provider under a sequence of calls *)

Module ProviderRun.
Import LearningContext.

Inductive provider_call :=
| UpdateProgress (hookId : string) (updates : ProgressUpdate) (now : Date)
| UpdateSettings (updates : SettingsUpdate)
| ResetProgress.

Definition provider_step (st : Provider) (c : provider_call) : Provider :=
  match c with
  | UpdateProgress hookId updates now =>
      (call_updateProgress hookId updates now st).1
  | UpdateSettings updates => (call_updateSettings updates st).1
  | ResetProgress => (call_resetProgress st).1
  end.

Definition provider_run (cs : list provider_call) (st : Provider)
  : Provider :=
  foldl provider_step st cs.

(** The persisted entries agree with the state: the settings always, the
    progress whenever [autoSave] is on. *)
Definition in_sync (st : Provider) : Prop :=
  learning_settings (localStorage st) = Some (settings st)
  ∧ (autoSave (settings st) = true →
     learning_progress (localStorage st) = Some (progress st)).

(** A browser in which the application never ran: both entries absent. *)
Definition empty_storage : Storage :=
  {| learning_progress := None; learning_settings := None |}.

(** One visit: the provider is mounted on the storage it finds and then
    receives a sequence of calls. *)
Definition session (cs : list provider_call) (storage : Storage)
  : Provider :=
  provider_run cs (mount storage).1.

(** The storage that earlier visits leave behind, the first of them on an
    empty storage: each entry is absent or was written by the provider. *)
Definition after_sessions (history : list (list provider_call)) : Storage :=
  foldl (λ storage cs, localStorage (session cs storage)) empty_storage
    history.

End ProviderRun.

(** ** QuizModal.tsx: the controls as rendered *)

Module QuizControls.
Import Num QuizModal.

Inductive control :=
| SelectOption (index : nat)
| Next
| Previous
| Retake
| Close.

(** [questions[currentQuestion]] *)
Definition currentQ (questions : list Question) (st : State)
  : option Question :=
  if (currentQuestion st <? 0)%Z then None
  else questions !! Z.to_nat (currentQuestion st).

(** Whether a control is on the page and not [disabled]: the question view
    is rendered while [showResults] is false, with one button per option,
    [Previous] disabled at index 0 and [Next] disabled while the current
    question has no selection; the results view has [Retake]. *)
Definition available (questions : list Question) (st : State) (c : control)
  : bool :=
  match c with
  | SelectOption index =>
      negb (showResults st)
      && match currentQ questions st with
         | Some q => bool_decide (index < length (q_options q))
         | None => false
         end
  | Next =>
      negb (showResults st)
      && bool_decide
           (is_Some (if (currentQuestion st <? 0)%Z then None
                     else array_get (selectedAnswers st)
                            (Z.to_nat (currentQuestion st))))
  | Previous =>
      negb (showResults st) && negb (currentQuestion st =? 0)%Z
  | Retake => showResults st
  | Close => true
  end.

(** The handler of a control; the second component is the score passed to
    [onComplete], if any. *)
Definition press (questions : list Question) (c : control) (st : State)
  : State * option number :=
  match c with
  | SelectOption index => (handleAnswerSelect (Z.of_nat index) st, None)
  | Next => nextQuestion questions st
  | Previous => (previousQuestion st, None)
  | Retake => (resetQuiz st, None)
  | Close => (st, None)
  end.

(** A sequence of presses, each on an available control; [None] when some
    control of the sequence is not available. *)
Fixpoint presses (questions : list Question) (cs : list control)
    (st : State) : option State :=
  match cs with
  | [] => Some st
  | c :: cs' =>
      if available questions st c
      then presses questions cs' (press questions c st).1
      else None
  end.

(** What the controls maintain: the index is inside the list, the
    selections form a gap-free prefix that reaches the current question,
    every selection is an option of its question, and the results are shown
    only with every question answered. *)
Definition well_formed (questions : list Question) (st : State) : Prop :=
  (0 ≤ currentQuestion st < Z.of_nat (length questions))%Z
  ∧ (Z.to_nat (currentQuestion st) ≤ length (selectedAnswers st))
  ∧ length (selectedAnswers st) ≤ length questions
  ∧ (∀ i q, questions !! i = Some q →
       i < length (selectedAnswers st) →
       ∃ a : nat, selectedAnswers st !! i = Some (Some (Z.of_nat a))
                  ∧ a < length (q_options q))
  ∧ (showResults st = true →
     length (selectedAnswers st) = length questions).

End QuizControls.

(** ** Seconds and milliseconds as doubles

    The operations of the code on recorded times and clock values, as
    binary64 operations: they give the whole numbers that the definitions
    above compute on [Z] (see [fadd_exact], [fsub_exact] and
    [floor_fdiv]). *)

Module Seconds.
Import Num LearningContext.

(** [x + y] *)
Definition fadd (x y : number) : number := SFadd prec emax x y.

(** [x - y] *)
Definition fsub (x y : number) : number := SFsub prec emax x y.

(** [Math.floor]: the greatest integer not above [x]; NaN, the infinities
    and the zeros are returned unchanged.  A finite [x] is
    [(-1)^s * m * 2^e]; for [e < 0] the result is the floor of the quotient,
    computed exactly on integers. *)
Definition Math_floor (x : number) : number :=
  match x with
  | S754_finite s m e =>
      if (0 <=? e)%Z then x
      else binary_normalize prec emax (cond_Zopp s (Zpos m) / 2 ^ (- e)) 0 s
  | _ => x
  end.

(** [records.reduce((total, p) => total + p.timeSpent, 0)] with the
    additions of binary64, on the records in the order in which
    [Object.values] lists them. *)
Definition reduce_timeSpent (records : list ProgressRecord) : number :=
  foldl (λ total p, fadd total (of_Z (timeSpent p))) (of_Z 0) records.

End Seconds.

Import Catalog Navigation Dashboard NotesPanel SettingsModal ProviderRun
  QuizControls Seconds.

(** ** Vocabulary of the specification *)

(** A sequence of [updateProgress] calls, each with the clock value it
    reads. *)
Definition run_updates (calls : list (string * ProgressUpdate * Date))
    (p : LearningProgress) : LearningProgress :=
  foldl (λ p c, updateProgress c.1.1 c.1.2 c.2 p) p calls.

(** The calls that address [hookId], in order. *)
Definition calls_on (hookId : string)
    (calls : list (string * ProgressUpdate * Date))
  : list (ProgressUpdate * Date) :=
  omap (λ c, if decide (c.1.1 = hookId) then Some (c.1.2, c.2) else None)
    calls.

(** The last value written to a field, or [d] when no update carried it. *)
Definition last_written {A} (field : ProgressUpdate → option A)
    (us : list (ProgressUpdate * Date)) (d : A) : A :=
  default d (last (omap (λ c, field c.1) us)).

(** The record the merge invariant promises after the updates [us] of one
    topic: no record before the first update; afterwards each field holds
    its last written value, or its documented default.  The default of
    [lastVisited] is the clock value of the first update. *)
Definition merged_record (us : list (ProgressUpdate * Date))
  : option ProgressRecord :=
  match us with
  | [] => None
  | (_, now0) :: _ =>
      Some {| completed := last_written u_completed us false;
              timeSpent := last_written u_timeSpent us 0%Z;
              lastVisited := last_written u_lastVisited us now0;
              notes := last_written u_notes us "";
              bookmarked := last_written u_bookmarked us false |}
  end.

(** The number of records with [completed = true]. *)
Definition completed_count (progress : LearningProgress) : nat :=
  size (filter (λ kv, completed kv.2 = true) progress).

(** The number of questions answered with their correct option. *)
Definition correctCount (questions : list Question)
    (selectedAnswers : list (option Z)) : nat :=
  length (filter (λ iq, array_get selectedAnswers iq.1
                        = Some (correctAnswer iq.2))
            (imap pair questions)).

(** The arithmetic of the two percentages on a count [c] out of [n]. *)
Definition percent (c n : Z) : number :=
  Math_round (fmul (fdiv (of_Z c) (of_Z n)) (of_Z 100)).

(** [percent c n] agrees with the exact rounding for every [c <= n] and
    [lo <= n < lo + len]. *)
Definition percent_table_ok (lo len : nat) : bool :=
  forallb (λ n,
    forallb (λ c,
      number_eqb (percent (Z.of_nat c) (Z.of_nat n))
        (of_Z (round_div (100 * Z.of_nat c) (Z.of_nat n))))
      (seq 0 (S n)))
    (seq lo len).

(** [x] is the canonical double of the dyadic number [N / 2^k]: a 53-bit
    mantissa [N * 2^(52 - log2 N)] with the matching exponent. *)
Definition canon (N k : Z) (x : number) : Prop :=
  ∃ m : positive,
    x = S754_finite false m (Z.log2 N - 52 - k)
    ∧ Zpos m = (N * 2 ^ (52 - Z.log2 N))%Z.

(** The seconds recorded for a topic, 0 when it has no record. *)
Definition stored_time (p : LearningProgress) (h : string) : Z :=
  default 0%Z (timeSpent <$> p !! h).

(** A cleanup obeys the caller contract when the clock has not gone back
    since the session started and the progress its closure captured does not
    show less recorded time for the topic than the store holds. *)
Definition cleanup_sound (p : LearningProgress) (now : Date) (a : action)
  : Prop :=
  match a with
  | Cleanup h (Some start) seen =>
      (start ≤ now)%Z ∧ (stored_time p h ≤ stored_time seen h)%Z
  | _ => True
  end.

Fixpoint sound_trace (p : LearningProgress) (tr : list (Date * action))
  : Prop :=
  match tr with
  | [] => True
  | e :: tr' => cleanup_sound p e.1 e.2 ∧ sound_trace (perform e.1 e.2 p) tr'
  end.

(** A question with a given correct option. *)
Definition mk_question (c : Z) : Question :=
  {| q_id := ""; q_question := ""; q_options := []; correctAnswer := c;
     q_explanation := "" |}.

(** *** Sample data *)

Definition mark_all (hs : list string) : LearningProgress :=
  foldr (λ h p, markAsCompleted h 0%Z p) ∅ hs.

(** Four topics of the catalog marked completed. *)
Definition four_completed : LearningProgress :=
  mark_all ["useState"; "useEffect"; "useContext"; "useReducer"].

(** The sixteen topics of the catalog and one more id, all completed. *)
Definition seventeen_completed : LearningProgress :=
  mark_all ["useState"; "useEffect"; "useContext"; "useReducer";
            "useCallback"; "useMemo"; "useRef"; "useImperativeHandle";
            "useLayoutEffect"; "useDebugValue"; "useId"; "useDeferredValue";
            "useTransition"; "useSyncExternalStore"; "useInsertionEffect";
            "custom"; "useOptimistic"].

(** The three-question quiz of the specification, correct options 1, 2, 0. *)
Definition quiz3 : list Question :=
  [mk_question 1; mk_question 2; mk_question 0].

(** Forty questions, the first twenty-three answered correctly and the
    others left unanswered. *)
Definition quiz40 : list Question := replicate 40 (mk_question 0).
Definition answers23 : list (option Z) := replicate 23 (Some 0%Z).

(** The provider mounted on empty storage, with one topic completed. *)
Definition fresh_provider : Provider :=
  (call_updateProgress "useState"
     {| u_completed := Some true; u_timeSpent := None; u_lastVisited := None;
        u_notes := None; u_bookmarked := None |} 1000%Z
     (mount {| learning_progress := None; learning_settings := None |}).1).1.

(** The same provider after the user switched [autoSave] off. *)
Definition manual_provider : Provider :=
  (call_updateSettings
     {| s_theme := None; s_difficulty := None; s_showHints := None;
        s_autoSave := Some false; s_soundEnabled := None |}
     fresh_provider).1.

Definition autoSave_on : SettingsUpdate :=
  {| s_theme := None; s_difficulty := None; s_showHints := None;
     s_autoSave := Some true; s_soundEnabled := None |}.

Definition write_time (t : Z) : ProgressUpdate :=
  {| u_completed := None; u_timeSpent := Some t; u_lastVisited := None;
     u_notes := None; u_bookmarked := None |}.

(** Two study sessions as [HookLearning] records them: a minute on
    [useState], then half a minute on [useEffect].  The cleanup of the first
    effect captured no session start; the cleanup of the second captured the
    start of the first session and the progress of the render that selected
    [useEffect]. *)
Definition two_sessions : list (Date * action) :=
  [(1000%Z, Open "useState");
   (31000%Z, ToggleBookmark "useState");
   (61000%Z, Cleanup "useState" None ∅);
   (61000%Z, Open "useEffect");
   (91000%Z, Cleanup "useEffect" (Some 1000%Z)
               (run [(1000%Z, Open "useState");
                     (31000%Z, ToggleBookmark "useState")] ∅))].

(** *** Tables for the score

    [percent c n] is 100 only for [c = n] and 0 only for [c = 0], and it
    reaches the pass mark 70 exactly when [139 * n <= 200 * c], for every
    [c <= n] and [lo <= n < lo + len]. *)
Definition score_marks_ok (lo len : nat) : bool :=
  forallb (λ n,
    forallb (λ c,
      Bool.eqb (number_eqb (percent (Z.of_nat c) (Z.of_nat n)) (of_Z 100))
               (c =? n)
      && Bool.eqb (number_eqb (percent (Z.of_nat c) (Z.of_nat n)) (of_Z 0))
                  (c =? 0)
      && Bool.eqb (fge (percent (Z.of_nat c) (Z.of_nat n)) (of_Z 70))
                  (139 * n <=? 200 * c))
      (seq 0 (S n)))
    (seq lo len).

(** The last question of the three-question quiz, all three answered. *)
Definition quiz3_last : State :=
  {| currentQuestion := 2; selectedAnswers := [Some 1; Some 2; Some 1]%Z;
     showResults := false; quizCompleted := false |}.

(** Three questions with four options each, as in [data/quizzes.ts]. *)
Definition quiz3_options : list Question :=
  (λ c, {| q_id := ""; q_question := ""; q_options := ["a"; "b"; "c"; "d"];
           correctAnswer := c; q_explanation := "" |}) <$> [1; 2; 0]%Z.

(** The number of topics of a path that are completed. *)
Fixpoint completed_in (progress : LearningProgress)
    (pathHooks : list string) : nat :=
  match pathHooks with
  | [] => 0
  | hookId :: rest =>
      (if is_completed progress hookId then 1 else 0)
      + completed_in progress rest
  end.

(** The seven ids that the recommendation goes through, in its order. *)
Definition recommendation_order : list string :=
  ["useState"; "useEffect"; "useRef"; "useContext"; "useReducer";
   "useCallback"; "useMemo"].

(** The fields of a record that a JSON round trip gives back as they were;
    [lastVisited] is left out, a [Date] being written as a string. *)
Definition record_data (r : ProgressRecord) : bool * Z * string * bool :=
  (completed r, timeSpent r, notes r, bookmarked r).

(** A stand-in for [toDateString]: the number of the day in UTC. *)
Definition utc_day (d : Date) : string := pretty (d / 86400000)%Z.

(** Three topics visited on two days. *)
Definition three_visits : LearningProgress :=
  run [(1000%Z, Open "useState"); (2000%Z, Open "useEffect");
       (86400000%Z, Open "useRef")] ∅.

(** ** The merge performed by [updateProgress] *)

Section Merge.
Implicit Types (p prev : LearningProgress) (u : ProgressUpdate).

Lemma updateProgress_lookup hookId u now prev :
  updateProgress hookId u now prev !! hookId
  = Some (spread_update (spread_record (default_record now)
                           (prev !! hookId)) u).
Proof. unfold updateProgress. by rewrite lookup_insert_eq. Qed.

Lemma updateProgress_lookup_ne hookId other u now prev :
  hookId ≠ other →
  updateProgress hookId u now prev !! other = prev !! other.
Proof. intros ?. unfold updateProgress. by rewrite lookup_insert_ne. Qed.

Lemma run_updates_snoc calls c p :
  run_updates (calls ++ [c]) p
  = updateProgress c.1.1 c.1.2 c.2 (run_updates calls p).
Proof. unfold run_updates. by rewrite foldl_app. Qed.

Lemma last_written_nil {A} (field : ProgressUpdate → option A) d :
  last_written field [] d = d.
Proof. reflexivity. Qed.

Lemma last_written_snoc {A} (field : ProgressUpdate → option A) us u now d :
  last_written field (us ++ [(u, now)]) d
  = default (last_written field us d) (field u).
Proof.
  unfold last_written. rewrite omap_app. simpl.
  destruct (field u) as [v|]; simpl.
  - by rewrite last_snoc.
  - by rewrite app_nil_r.
Qed.

(** A field that no update carried holds its default. *)
Lemma last_written_never {A} (field : ProgressUpdate → option A) us d :
  Forall (λ c, field c.1 = None) us → last_written field us d = d.
Proof.
  induction us as [|[u now] us IH] using rev_ind; [done|].
  rewrite Forall_app, Forall_singleton. intros [Hus Hu].
  rewrite last_written_snoc. simpl in Hu. rewrite Hu. simpl. auto.
Qed.

(** A field holds the value of the last update that carried it. *)
Lemma last_written_last {A} (field : ProgressUpdate → option A)
    us u now us' v d :
  field u = Some v → Forall (λ c, field c.1 = None) us' →
  last_written field (us ++ (u, now) :: us') d = v.
Proof.
  intros Hu. induction us' as [|[u' now'] us' IH] using rev_ind.
  - intros _. rewrite last_written_snoc. by rewrite Hu.
  - rewrite Forall_app, Forall_singleton. intros [Hus' Hu'].
    replace (us ++ (u, now) :: us' ++ [(u', now')])
      with ((us ++ (u, now) :: us') ++ [(u', now')])
      by (by rewrite <- app_assoc).
    rewrite last_written_snoc. simpl in Hu'. rewrite Hu'. simpl. auto.
Qed.

Lemma merged_record_snoc us u now :
  merged_record (us ++ [(u, now)])
  = Some (spread_update
            (spread_record (default_record now) (merged_record us)) u).
Proof.
  destruct us as [|[u0 now0] us].
  - by destruct u as [[?|] [?|] [?|] [?|] [?|]].
  - change (((u0, now0) :: us) ++ [(u, now)])
      with ((u0, now0) :: (us ++ [(u, now)])).
    unfold merged_record at 1.
    change ((u0, now0) :: (us ++ [(u, now)]))
      with (((u0, now0) :: us) ++ [(u, now)]).
    rewrite !last_written_snoc. reflexivity.
Qed.

Lemma calls_on_snoc hookId calls c :
  calls_on hookId (calls ++ [c])
  = calls_on hookId calls
    ++ (if decide (c.1.1 = hookId) then [(c.1.2, c.2)] else []).
Proof.
  unfold calls_on. rewrite omap_app. simpl. by destruct (decide _).
Qed.

Lemma run_updates_lookup calls hookId :
  run_updates calls ∅ !! hookId = merged_record (calls_on hookId calls).
Proof.
  induction calls as [|[[h u] now] calls IH] using rev_ind.
  - apply lookup_empty.
  - rewrite run_updates_snoc, calls_on_snoc. simpl.
    destruct (decide (h = hookId)) as [->|Hne].
    + rewrite updateProgress_lookup, IH. by rewrite merged_record_snoc.
    + rewrite updateProgress_lookup_ne by done. by rewrite app_nil_r.
Qed.

End Merge.

(** C1. Starting from the empty map, after any finite sequence of
    [updateProgress] calls the record of a topic is absent if no call
    addressed the topic and otherwise holds, field by field, the last value
    written to the field, or the default ([completed = false],
    [timeSpent = 0], [notes = ""], [bookmarked = false]) when no call
    carried the field; and one call keeps every field of an existing record
    that its partial update does not carry. *)
Theorem C1_merge_invariant
    (calls : list (string * ProgressUpdate * Date)) (hookId : string) :
  run_updates calls ∅ !! hookId = merged_record (calls_on hookId calls)
  ∧ ∀ (prev : LearningProgress) (r : ProgressRecord) (u : ProgressUpdate)
      (now : Date),
      updateProgress hookId u now (<[hookId := r]> prev) !! hookId
      = Some {| completed :=
                  match u_completed u with
                  | Some v => v | None => completed r end;
                timeSpent :=
                  match u_timeSpent u with
                  | Some v => v | None => timeSpent r end;
                lastVisited :=
                  match u_lastVisited u with
                  | Some v => v | None => lastVisited r end;
                notes :=
                  match u_notes u with Some v => v | None => notes r end;
                bookmarked :=
                  match u_bookmarked u with
                  | Some v => v | None => bookmarked r end |}.
Proof.
  split.
  - apply run_updates_lookup.
  - intros prev r u now.
    rewrite updateProgress_lookup, lookup_insert_eq. reflexivity.
Qed.

(** The example of the specification: bookmark, then a note. *)
Example merge_bookmark_then_note :
  run_updates
    [("a", {| u_completed := None; u_timeSpent := None;
              u_lastVisited := None; u_notes := None;
              u_bookmarked := Some true |}, 1000%Z);
     ("a", {| u_completed := None; u_timeSpent := None;
              u_lastVisited := None; u_notes := Some "x";
              u_bookmarked := None |}, 2000%Z)] ∅ !! "a"
  = Some {| completed := false; timeSpent := 0%Z; lastVisited := 1000%Z;
            notes := "x"; bookmarked := true |}.
Proof. by rewrite run_updates_lookup. Qed.

(** ** Exact double arithmetic on small dyadic numbers

    The division by 16 and the multiplication by 100 of
    [getCompletionPercentage] are exact in binary64: the proofs follow
    [SFdiv] and [SFmul] through their rounding step and show that no bit is
    shifted out. *)

Section Doubles.
Local Open Scope Z_scope.

Lemma digits2_pos_size p : digits2_pos p = Pos.size p.
Proof. induction p; simpl; congruence. Qed.

Lemma digits2_log2 p : Zpos (digits2_pos p) = Z.log2 (Zpos p) + 1.
Proof.
  rewrite digits2_pos_size. destruct p; simpl; try lia.
Qed.

Lemma Zpos_iter_xO p k : Zpos (Pos.iter xO p k) = Zpos p * 2 ^ Zpos k.
Proof.
  induction k using Pos.peano_ind.
  - simpl. lia.
  - rewrite Pos.iter_succ, Pos2Z.inj_xO, IHk, Pos2Z.inj_succ,
      Z.pow_succ_r by lia.
    lia.
Qed.

Lemma iter_pos_iter {A} (f : A → A) n x :
  SpecFloat.iter_pos f n x = Pos.iter f x n.
Proof.
  revert x. induction n; intros x; simpl.
  - rewrite !IHn. rewrite <- !Pos.iter_swap. reflexivity.
  - by rewrite !IHn.
  - reflexivity.
Qed.

Lemma shr_1_iter_exact n q :
  Pos.iter shr_1 (Build_shr_record (Zpos (Pos.iter xO q n)) false false) n
  = Build_shr_record (Zpos q) false false.
Proof.
  induction n using Pos.peano_ind.
  - reflexivity.
  - rewrite !Pos.iter_succ. rewrite <- Pos.iter_swap. simpl. exact IHn.
Qed.

(** An exact right shift. *)
Lemma shr_exact q e n :
  0 < n →
  ∀ m, m = Zpos q * 2 ^ n →
  shr (Build_shr_record m false false) e n
  = (Build_shr_record (Zpos q) false false, e + n).
Proof.
  intros Hn m ->. destruct n as [|np|np]; try lia.
  unfold shr. rewrite iter_pos_iter, <- Zpos_iter_xO.
  by rewrite shr_1_iter_exact.
Qed.

Lemma Zdigits2_log2 m : 0 < m → Zdigits2 m = Z.log2 m + 1.
Proof. destruct m; try lia. intros _. apply digits2_log2. Qed.

Lemma fexp_normal e : -1021 ≤ e → fexp prec emax e = e - 53.
Proof. unfold fexp, emin, prec, emax. lia. Qed.

(** Rounding a mantissa whose low [n] bits are zero and which has [53 + n]
    bits is exact. *)
Lemma binary_round_aux_exact sx (q : positive) e n :
  Z.log2 (Zpos q) = 52 → 0 ≤ n → -1074 ≤ e + n ≤ 971 →
  binary_round_aux prec emax sx (Zpos q * 2 ^ n) e loc_Exact
  = S754_finite sx q (e + n).
Proof.
  intros Hq Hn He.
  assert (0 < Zpos q * 2 ^ n) as Hpos by (apply Z.mul_pos_pos; lia).
  assert (Z.log2 (Zpos q * 2 ^ n) = 52 + n) as Hlog
    by (rewrite Z.log2_mul_pow2 by lia; lia).
  unfold binary_round_aux, shr_fexp.
  rewrite (Zdigits2_log2 _ Hpos), Hlog.
  rewrite fexp_normal by lia.
  replace (52 + n + 1 + e - 53 - e) with n by lia.
  assert (shr (shr_record_of_loc (Zpos q * 2 ^ n) loc_Exact) e n
          = (Build_shr_record (Zpos q) false false, e + n)) as ->.
  { destruct (Z.eq_dec n 0) as [->|Hn0].
    - rewrite Z.pow_0_r, Z.mul_1_r, Z.add_0_r. reflexivity.
    - apply shr_exact; [lia|reflexivity]. }
  cbn [shr_m loc_of_shr_record round_nearest_even].
  rewrite (Zdigits2_log2 (Zpos q)) by lia. rewrite Hq.
  rewrite fexp_normal by lia.
  replace (52 + 1 + (e + n) - 53 - (e + n)) with 0 by lia.
  cbn [shr shr_record_of_loc shr_m].
  unfold prec, emax.
  destruct (Z.leb_spec (e + n) (1024 - 53)); [reflexivity|lia].
Qed.


Lemma canon_intro N k e :
  0 < N → Z.log2 N ≤ 52 → e = Z.log2 N - 52 - k →
  canon N k (S754_finite false (Z.to_pos (N * 2 ^ (52 - Z.log2 N))) e).
Proof.
  intros HN Hlog ->. eexists. split; [reflexivity|].
  rewrite Z2Pos.id; [reflexivity|]. apply Z.mul_pos_pos; lia.
Qed.

Lemma canon_log2 N m : 0 < N → Z.log2 N ≤ 52 →
  Zpos m = N * 2 ^ (52 - Z.log2 N) → Z.log2 (Zpos m) = 52.
Proof. intros HN Hlog ->. rewrite Z.log2_mul_pow2 by lia. lia. Qed.

Lemma shl_align_spec mx ex ex' :
  ex' ≤ ex →
  ∃ mz, shl_align mx ex ex' = (mz, ex')
             ∧ Zpos mz = Zpos mx * 2 ^ (ex - ex').
Proof.
  intros Hle. unfold shl_align.
  destruct (ex' - ex) as [|d|d] eqn:Hd; try lia.
  - exists mx. replace ex' with ex by lia. rewrite Z.sub_diag.
    split; [done|lia].
  - exists (Pos.iter xO mx d). split; [done|].
    rewrite Zpos_iter_xO. f_equal. f_equal. lia.
Qed.

Lemma of_Z_canon N : 0 < N < 2 ^ 53 → canon N 0 (of_Z N).
Proof.
  intros [HN Hlt]. destruct N as [|p|p]; try lia.
  assert (Z.log2 (Zpos p) <= 52) as Hlog.
  { apply Z.lt_succ_r. apply Z.log2_lt_pow2; lia. }
  unfold of_Z, binary_normalize, binary_round.
  pose proof (Z.log2_nonneg (Zpos p)) as Hlog0.
  rewrite digits2_log2, Z.add_0_r, fexp_normal by lia.
  destruct (shl_align_spec p 0 (Z.log2 (Zpos p) + 1 - 53)) as (mz & -> & Hmz);
    [lia|].
  replace (0 - (Z.log2 (Zpos p) + 1 - 53)) with (52 - Z.log2 (Zpos p))
    in Hmz by lia.
  pose proof (canon_log2 _ _ HN Hlog Hmz) as Hmzlog.
  pose proof (binary_round_aux_exact false mz (Z.log2 (Zpos p) + 1 - 53) 0
                Hmzlog) as Hround.
  rewrite Z.pow_0_r, Z.mul_1_r, Z.add_0_r in Hround.
  rewrite Hround by lia.
  exists mz. split; [f_equal; lia|exact Hmz].
Qed.


Lemma div_eucl_div_mod a b : Z.div_eucl a b = (a / b, a mod b).
Proof. unfold Z.div, Z.modulo. by destruct (Z.div_eucl a b). Qed.

(** Division by 16 lowers the exponent by 4. *)
Lemma fdiv_16_canon N k x :
  0 < N → Z.log2 N ≤ 52 → -900 ≤ k ≤ 900 →
  canon N k x → canon N (k + 4) (fdiv x (of_Z 16)).
Proof.
  intros HN Hlog Hk (m & -> & Hm).
  pose proof (canon_log2 _ _ HN Hlog Hm) as Hmlog.
  pose proof (Z.log2_nonneg N) as Hlog0.
  change (of_Z 16) with (S754_finite false 4503599627370496 (-48)).
  unfold fdiv, SFdiv, SFdiv_core_binary.
  rewrite (Zdigits2_log2 (Zpos m)) by lia. rewrite Hmlog.
  change (Zdigits2 4503599627370496) with 53.
  set (e := Z.log2 N - 52 - k).
  replace (52 + 1 + e - (53 + -48)) with (e + 48) by lia.
  rewrite fexp_normal by lia.
  rewrite Z.min_l by lia.
  replace (e - -48 - (e + 48 - 53)) with 53 by lia.
  rewrite Z.shiftl_mul_pow2 by lia.
  rewrite div_eucl_div_mod.
  replace (Zpos m * 2 ^ 53) with ((Zpos m * 2) * 4503599627370496) by lia.
  rewrite Z.div_mul, Z.mod_mul by lia.
  change (new_location 4503599627370496 0) with loc_Exact.
  cbn [xorb].
  replace (Zpos m * 2) with (Zpos m * 2 ^ 1) by lia.
  rewrite binary_round_aux_exact by lia.
  exists m. split; [f_equal; lia|exact Hm].
Qed.

(** Multiplication by 100 is exact while the product fits 53 bits. *)
Lemma fmul_100_canon N k x :
  0 < N → 25 * N < 2 ^ 53 → -900 ≤ k ≤ 900 →
  canon N k x → canon (25 * N) (k - 2) (fmul x (of_Z 100)).
Proof.
  intros HN Hfit Hk (m & -> & Hm).
  assert (Z.log2 (25 * N) <= 52) as Hlog25
    by (apply Z.lt_succ_r, Z.log2_lt_pow2; lia).
  assert (Z.log2 N <= Z.log2 (25 * N)) as Hmono
    by (apply Z.log2_le_mono; lia).
  pose proof (Z.log2_nonneg N) as Hlog0.
  change (of_Z 100) with (S754_finite false 7036874417766400 (-46)).
  unfold fmul, SFmul. cbn [xorb].
  set (q := Z.to_pos (25 * N * 2 ^ (52 - Z.log2 (25 * N)))).
  assert (Zpos q = 25 * N * 2 ^ (52 - Z.log2 (25 * N))) as Hq.
  { unfold q. rewrite Z2Pos.id; [reflexivity|]. apply Z.mul_pos_pos; lia. }
  assert (Z.log2 (Zpos q) = 52) as Hqlog.
  { rewrite Hq, Z.log2_mul_pow2 by lia. lia. }
  set (n := 48 + Z.log2 (25 * N) - Z.log2 N).
  assert (Zpos (m * 7036874417766400) = Zpos q * 2 ^ n) as ->.
  { rewrite Pos2Z.inj_mul, Hm, Hq.
    change (Zpos 7036874417766400) with (25 * 2 ^ 48).
    unfold n.
    replace (48 + Z.log2 (25 * N) - Z.log2 N)
      with ((52 - Z.log2 N) + 48 - (52 - Z.log2 (25 * N))) by lia.
    rewrite <- (Z.mul_assoc (25 * N)), <- Z.pow_add_r by lia.
    replace (52 - Z.log2 (25 * N)
             + (52 - Z.log2 N + 48 - (52 - Z.log2 (25 * N))))
      with ((52 - Z.log2 N) + 48) by lia.
    rewrite Z.pow_add_r by lia. lia. }
  rewrite binary_round_aux_exact by (unfold n; lia).
  exists q. split; [f_equal; unfold n; lia|exact Hq].
Qed.

(** Rounding the canonical double of [N / 2^k]. *)
Lemma Math_round_canon N k x :
  0 < N → Z.log2 N ≤ 52 → 0 ≤ k → Z.log2 N < 52 + k →
  canon N k x → Math_round x = of_Z (round_div N (2 ^ k)).
Proof.
  intros HN Hlog Hk He (m & -> & Hm).
  unfold Math_round.
  destruct (Z.leb_spec 0 (Z.log2 N - 52 - k)); [lia|].
  cbn [cond_Zopp]. unfold of_Z. f_equal.
  unfold round_div. rewrite Hm.
  replace (- (Z.log2 N - 52 - k)) with ((52 - Z.log2 N) + k) by lia.
  rewrite <- Z.add_assoc, !Z.pow_add_r by lia.
  replace (2 * (N * 2 ^ (52 - Z.log2 N)) + 2 ^ (52 - Z.log2 N) * 2 ^ k)
    with (2 ^ (52 - Z.log2 N) * (2 * N + 2 ^ k)) by lia.
  replace (2 ^ 1) with 2 by reflexivity.
  replace (2 ^ (52 - Z.log2 N) * (2 ^ k * 2))
    with (2 ^ (52 - Z.log2 N) * (2 * 2 ^ k)) by lia.
  rewrite Z.div_mul_cancel_l; [reflexivity| |];
    pose proof (Z.pow_pos_nonneg 2 k);
    pose proof (Z.pow_pos_nonneg 2 (52 - Z.log2 N)); lia.
Qed.


Lemma percent_16_exact c :
  0 ≤ c < 2 ^ 48 → percent c 16 = of_Z (round_div (100 * c) 16).
Proof.
  intros [Hc0 Hc]. destruct (Z.eq_dec c 0) as [->|Hne]; [reflexivity|].
  assert (0 < c) as Hpos by lia.
  assert (Z.log2 c <= 52) as Hlog
    by (apply Z.lt_succ_r, Z.log2_lt_pow2; lia).
  assert (0 < 25 * c < 2 ^ 53) as H25 by lia.
  assert (Z.log2 (25 * c) <= 52) as Hlog25
    by (apply Z.lt_succ_r, Z.log2_lt_pow2; lia).
  unfold percent.
  rewrite (Math_round_canon (25 * c) 2); try lia.
  - f_equal. unfold round_div.
    replace (2 * (100 * c) + 16) with (4 * (2 * (25 * c) + 2 ^ 2)) by lia.
    replace (2 * 16) with (4 * (2 * 2 ^ 2)) by lia.
    rewrite Z.div_mul_cancel_l; lia.
  - replace 2 with (0 + 4 - 2) at 1 by lia.
    apply fmul_100_canon; try lia.
    apply fdiv_16_canon; try lia.
    apply of_Z_canon; lia.
Qed.

End Doubles.

(** ** The arithmetic of percentages *)

Section Percentages.

Lemma number_eqb_eq x y : number_eqb x y = true → x = y.
Proof. unfold number_eqb. by destruct (number_eq_dec x y). Qed.

Lemma percent_table_sound lo len n c :
  percent_table_ok lo len = true →
  lo ≤ n < lo + len → c ≤ n →
  percent (Z.of_nat c) (Z.of_nat n)
  = of_Z (round_div (100 * Z.of_nat c) (Z.of_nat n)).
Proof.
  unfold percent_table_ok. intros Htable Hn Hc.
  pose proof (proj1 (forallb_forall _ _) Htable n) as Hrow.
  assert (In n (seq lo len)) as Hin by (apply in_seq; lia).
  specialize (Hrow Hin).
  pose proof (proj1 (forallb_forall _ _) Hrow c) as Hcell.
  apply number_eqb_eq, Hcell, in_seq. lia.
Qed.

(** Counts out of 1 to 39 questions. *)
Lemma quiz_table : percent_table_ok 1 39 = true.
Proof. vm_compute. reflexivity. Qed.

Lemma round_div_bounds c n :
  (0 ≤ c ≤ n)%Z → (0 < n)%Z → (0 ≤ round_div (100 * c) n ≤ 100)%Z.
Proof.
  intros Hc Hn. unfold round_div. split.
  - apply Z.div_pos; lia.
  - apply Z.lt_succ_r, Z.div_lt_upper_bound; lia.
Qed.

End Percentages.

(** ** Aggregates over the progress map *)

Section Aggregates.
Implicit Types (progress : LearningProgress).

Lemma completed_values_count progress :
  length (filter (λ p, completed p = true) (Object_values progress))
  = completed_count progress.
Proof.
  unfold Object_values, completed_count.
  induction progress as [|i x m Hi IH] using map_ind.
  - by rewrite map_to_list_empty, map_filter_empty, map_size_empty.
  - rewrite map_to_list_insert by done. rewrite fmap_cons. simpl.
    rewrite filter_cons, map_filter_insert. simpl.
    destruct (decide (completed x = true)) as [Hx|Hx].
    + rewrite map_size_insert_None
        by (apply map_lookup_filter_None; by left).
      simpl. by rewrite IH.
    + by rewrite delete_id.
Qed.

Lemma getCompletionPercentage_percent progress :
  getCompletionPercentage progress
  = percent (Z.of_nat (completed_count progress)) totalHooks.
Proof.
  unfold getCompletionPercentage, percent.
  by rewrite completed_values_count.
Qed.

End Aggregates.

(** C2 (as amended). For every progress map, [getCompletionPercentage]
    returns the integer [round (100 * count / 16)], where [count] is the
    number of records with [completed = true]; the result is at least 0,
    and it is at most 100 exactly when at most 16 records are completed;
    with exactly 4 completed records it is 25.  (The count is taken below
    2^48; the length of a JavaScript array is below 2^32.) *)
Theorem C2_completion_percentage (progress : LearningProgress) :
  (Z.of_nat (completed_count progress) < 2 ^ 48)%Z →
  getCompletionPercentage progress
  = of_Z (round_div (100 * Z.of_nat (completed_count progress)) totalHooks)
  ∧ (0 ≤ round_div (100 * Z.of_nat (completed_count progress)) totalHooks)%Z
  ∧ ((round_div (100 * Z.of_nat (completed_count progress)) totalHooks
      ≤ 100)%Z ↔ completed_count progress ≤ 16)
  ∧ (completed_count progress = 4 →
     getCompletionPercentage progress = of_Z 25).
Proof.
  intros Hsmall.
  assert (getCompletionPercentage progress
          = of_Z (round_div (100 * Z.of_nat (completed_count progress))
                    totalHooks)) as Heq.
  { rewrite getCompletionPercentage_percent.
    apply percent_16_exact. lia. }
  split; [exact Heq|]. unfold round_div, totalHooks. repeat split.
  - apply Z.div_pos; lia.
  - intros Hle. destruct (decide (completed_count progress ≤ 16)); [done|].
    assert (101 ≤ (2 * (100 * Z.of_nat (completed_count progress)) + 16)
                  / (2 * 16))%Z by (apply Z.div_le_lower_bound; lia).
    lia.
  - intros Hle. apply Z.lt_succ_r, Z.div_lt_upper_bound; lia.
  - intros H4. rewrite Heq, H4. reflexivity.
Qed.

(** C2 at the map with four topics of the catalog completed. *)
Lemma C2_completion_percentage_witness :
  (Z.of_nat (completed_count four_completed) < 2 ^ 48)%Z
  ∧ getCompletionPercentage four_completed = of_Z 25.
Proof.
  assert (completed_count four_completed = 4) as H4
    by (vm_compute; reflexivity).
  assert (Z.of_nat (completed_count four_completed) < 2 ^ 48)%Z as Hsmall
    by (rewrite H4; reflexivity).
  split; [exact Hsmall|].
  exact (proj2 (proj2 (proj2
           (C2_completion_percentage four_completed Hsmall))) H4).
Defined.

(** C2, as stated, fails: with seventeen completed records the result is
    106, outside [0, 100]. *)
Lemma C2_percentage_above_100 :
  to_Z (getCompletionPercentage seventeen_completed) = Some 106%Z
  ∧ ¬ ∃ z : Z, (0 ≤ z ≤ 100)%Z
        ∧ to_Z (getCompletionPercentage seventeen_completed) = Some z.
Proof.
  assert (to_Z (getCompletionPercentage seventeen_completed) = Some 106%Z)
    as H by (vm_compute; reflexivity).
  split; [exact H|]. intros (z & Hz & Hz'). rewrite H in Hz'.
  injection Hz' as <-. lia.
Qed.

(** ** The quiz engine *)

Section Scoring.
Implicit Types (questions : list Question) (sel : list (option Z)).

Lemma forEach_correct_count sel questions index correct :
  forEach_correct sel questions index correct
  = (correct
     + Z.of_nat
         (length
            (filter (λ iq, array_get sel iq.1 = Some (correctAnswer iq.2))
               (imap (λ j q, ((index + j)%nat, q)) questions))))%Z.
Proof.
  revert index correct.
  induction questions as [|q questions IH]; intros index correct.
  - simpl. lia.
  - simpl forEach_correct. rewrite IH, imap_cons, filter_cons. simpl.
    rewrite Nat.add_0_r.
    rewrite (imap_ext ((λ j q0, (index + j, q0)) ∘ S)
               (λ j q0, (S index + j, q0)))
      by (intros; simpl; f_equal; lia).
    destruct (decide (array_get sel index = Some (correctAnswer q)));
      simpl; lia.
Qed.

Lemma forEach_correct_correctCount sel questions :
  forEach_correct sel questions 0 0%Z
  = Z.of_nat (correctCount questions sel).
Proof. by rewrite forEach_correct_count. Qed.

Lemma correctCount_le questions sel :
  correctCount questions sel ≤ length questions.
Proof.
  unfold correctCount.
  etransitivity; [apply length_filter|]. by rewrite length_imap.
Qed.

(** With no answer selected, no question counts as correct. *)
Lemma correctCount_unanswered questions : correctCount questions [] = 0.
Proof.
  unfold correctCount. generalize (@pair nat Question).
  induction questions as [|q questions IH]; intros f; [done|].
  rewrite imap_cons, filter_cons_False by (by destruct (f 0 q)).
  apply IH.
Qed.

Lemma calculateScore_percent questions sel :
  calculateScore questions sel
  = percent (Z.of_nat (correctCount questions sel))
      (Z.of_nat (length questions)).
Proof.
  unfold calculateScore, percent. by rewrite forEach_correct_correctCount.
Qed.

End Scoring.

(** C3 (as amended). For an empty question list [calculateScore] divides 0
    by 0: the score is NaN, not 0, whatever the selections.  Advancing from
    the initial state does finish the session at once, and hands that NaN
    to [onComplete]. *)
Theorem C3_empty_quiz_score (selectedAnswers : list (option Z)) :
  calculateScore [] selectedAnswers = NaN
  ∧ calculateScore [] selectedAnswers ≠ of_Z 0
  ∧ nextQuestion [] initial
    = ({| currentQuestion := 0; selectedAnswers := [];
          showResults := true; quizCompleted := true |}, Some NaN).
Proof. repeat split. discriminate. Qed.

(** C3, as stated, fails at the empty quiz with no selection: the session
    is finished at once, but the score is not 0. *)
Lemma C3_empty_score_not_zero :
  ¬ (calculateScore [] [] = of_Z 0
     ∧ showResults (nextQuestion [] initial).1 = true
     ∧ quizCompleted (nextQuestion [] initial).1 = true).
Proof. intros [Hscore _]. vm_compute in Hscore. discriminate Hscore. Qed.

(** C4 (as amended). For every list of 1 to 39 questions and every
    selection array, [calculateScore] returns
    [round (100 * correctCount / totalQuestions)], an integer in [0, 100],
    where [correctCount] counts the questions whose selected option is the
    correct one (an unanswered question never matches); on the quiz with
    correct answers 1, 2, 0 the selections 1, 2, 1 score 67 and the correct
    selections score 100; with nothing selected the score is 0. *)
Theorem C4_quiz_score (questions : list Question)
    (selectedAnswers : list (option Z)) :
  1 ≤ length questions ≤ 39 →
  calculateScore questions selectedAnswers
  = of_Z (round_div (100 * Z.of_nat (correctCount questions selectedAnswers))
            (Z.of_nat (length questions)))
  ∧ (0 ≤ round_div (100 * Z.of_nat (correctCount questions selectedAnswers))
           (Z.of_nat (length questions)) ≤ 100)%Z
  ∧ calculateScore questions [] = of_Z 0
  ∧ calculateScore quiz3 [Some 1; Some 2; Some 1]%Z = of_Z 67
  ∧ calculateScore quiz3 [Some 1; Some 2; Some 0]%Z = of_Z 100
  ∧ calculateScore quiz3 [Some 1; Some 2]%Z = of_Z 67.
Proof.
  intros Hlen.
  pose proof (correctCount_le questions selectedAnswers) as Hle.
  split; [|split; [|split]].
  - rewrite calculateScore_percent.
    apply (percent_table_sound 1 39); [apply quiz_table|lia|lia].
  - apply round_div_bounds; lia.
  - rewrite calculateScore_percent, correctCount_unanswered.
    rewrite (percent_table_sound 1 39 (length questions) 0 quiz_table)
      by lia.
    f_equal. unfold round_div. apply Z.div_small. lia.
  - repeat split; vm_compute; reflexivity.
Qed.

(** C4 at the three-question quiz with the selections 1, 2, 1. *)
Lemma C4_quiz_score_witness :
  1 ≤ length quiz3 ≤ 39
  ∧ calculateScore quiz3 [Some 1; Some 2; Some 1]%Z
    = of_Z (round_div
              (100 * Z.of_nat (correctCount quiz3 [Some 1; Some 2; Some 1]%Z))
              (Z.of_nat (length quiz3))).
Proof.
  assert (1 ≤ length quiz3 ≤ 39) as Hlen by (simpl; lia).
  split; [exact Hlen|].
  exact (proj1 (C4_quiz_score quiz3 [Some 1; Some 2; Some 1]%Z Hlen)).
Defined.

(** C4, as stated for every non-empty list, fails: with 23 of 40 questions
    correct the double [(23 / 40) * 100] is 57.49999999999999 and the score
    is 57, while [round (100 * 23 / 40)] is 58. *)
Lemma C4_score_23_of_40 :
  length quiz40 = 40
  ∧ correctCount quiz40 answers23 = 23
  ∧ calculateScore quiz40 answers23 = of_Z 57
  ∧ round_div (100 * 23) 40 = 58%Z
  ∧ calculateScore quiz40 answers23
    ≠ of_Z (round_div (100 * Z.of_nat (correctCount quiz40 answers23))
              (Z.of_nat (length quiz40))).
Proof.
  repeat split; try (vm_compute; reflexivity).
  vm_compute. discriminate.
Qed.

(** C5. Navigation saturates; both functions are total.  [previousQuestion]
    at index 0 returns the state unchanged, never touches the selections and
    never takes a non-negative index below 0; [nextQuestion] at the last
    question sets [quizCompleted] (and [showResults]), reports the score and
    leaves the index where it is, and from an index inside the list it never
    produces an index past the end. *)
Theorem C5_navigation_saturates (questions : list Question) (st : State) :
  (currentQuestion st = 0%Z → previousQuestion st = st)
  ∧ selectedAnswers (previousQuestion st) = selectedAnswers st
  ∧ ((0 ≤ currentQuestion st)%Z →
     (0 ≤ currentQuestion (previousQuestion st) ≤ currentQuestion st)%Z)
  ∧ (currentQuestion st = (Z.of_nat (length questions) - 1)%Z →
     nextQuestion questions st
     = ({| currentQuestion := currentQuestion st;
           selectedAnswers := selectedAnswers st;
           showResults := true;
           quizCompleted := true |},
        Some (calculateScore questions (selectedAnswers st))))
  ∧ ((currentQuestion st < Z.of_nat (length questions))%Z →
     (currentQuestion (nextQuestion questions st).1
      < Z.of_nat (length questions))%Z
     ∧ selectedAnswers (nextQuestion questions st).1 = selectedAnswers st).
Proof.
  unfold previousQuestion, nextQuestion. repeat split.
  - intros ->. reflexivity.
  - by destruct (0 <? currentQuestion st)%Z.
  - destruct (0 <? currentQuestion st)%Z eqn:E; simpl; lia.
  - destruct (0 <? currentQuestion st)%Z eqn:E; simpl; lia.
  - intros ->. by rewrite Z.ltb_irrefl.
  - destruct (currentQuestion st <? Z.of_nat (length questions) - 1)%Z eqn:E;
      simpl; lia.
  - by destruct (currentQuestion st <? Z.of_nat (length questions) - 1)%Z.
Qed.

(** C5 at the initial state and at the last question of the
    three-question quiz. *)
Lemma C5_navigation_saturates_witness :
  previousQuestion initial = initial
  ∧ nextQuestion quiz3
      {| currentQuestion := 2; selectedAnswers := [Some 1; Some 2; Some 1]%Z;
         showResults := false; quizCompleted := false |}
    = ({| currentQuestion := 2; selectedAnswers := [Some 1; Some 2; Some 1]%Z;
          showResults := true; quizCompleted := true |}, Some (of_Z 67)).
Proof.
  split.
  - exact (proj1 (C5_navigation_saturates quiz3 initial) eq_refl).
  - exact (proj1 (proj2 (proj2 (proj2
             (C5_navigation_saturates quiz3
                {| currentQuestion := 2;
                   selectedAnswers := [Some 1; Some 2; Some 1]%Z;
                   showResults := false; quizCompleted := false |}))))
             eq_refl).
Defined.

(** ** Persistence *)

Section Persistence.
Implicit Types (st : Provider).

Lemma call_updateSettings_state updates st :
  progress (call_updateSettings updates st).1 = progress st
  ∧ settings (call_updateSettings updates st).1
    = updateSettings updates (settings st).
Proof. by split. Qed.

Lemma call_updateSettings_calls updates st :
  (call_updateSettings updates st).2
  = (if negb (Bool.eqb (autoSave (settings st))
                (autoSave (updateSettings updates (settings st))))
        && autoSave (updateSettings updates (settings st))
     then [setItem_progress (progress st)] else [])
    ++ [setItem_settings (updateSettings updates (settings st))].
Proof.
  unfold call_updateSettings, commit, effects. cbn [fst snd].
  by destruct (autoSave (settings st)),
    (autoSave (updateSettings updates (settings st))).
Qed.

Lemma call_updateSettings_stored updates st :
  learning_settings (localStorage (call_updateSettings updates st).1)
  = Some (updateSettings updates (settings st)).
Proof.
  unfold call_updateSettings, commit, effects. cbn [fst snd].
  by destruct (autoSave (settings st)),
    (autoSave (updateSettings updates (settings st))).
Qed.

Lemma call_updateProgress_calls hookId updates now st :
  (call_updateProgress hookId updates now st).2
  = if autoSave (settings st)
    then [setItem_progress (updateProgress hookId updates now (progress st))]
    else [].
Proof.
  unfold call_updateProgress, commit, effects. simpl.
  destruct (autoSave (settings st)); by rewrite app_nil_r.
Qed.

Lemma call_updateProgress_storage hookId updates now st :
  localStorage (call_updateProgress hookId updates now st).1
  = if autoSave (settings st)
    then {| learning_progress :=
              Some (updateProgress hookId updates now (progress st));
            learning_settings := learning_settings (localStorage st) |}
    else localStorage st.
Proof.
  unfold call_updateProgress, commit, effects. simpl.
  by destruct (autoSave (settings st)).
Qed.

Lemma call_resetProgress_calls st :
  (call_resetProgress st).2
  = removeItem_progress
      :: (if autoSave (settings st) then [setItem_progress ∅] else []).
Proof.
  unfold call_resetProgress, commit, effects. simpl.
  destruct (autoSave (settings st)); by rewrite ?app_nil_r.
Qed.

Lemma call_resetProgress_storage st :
  localStorage (call_resetProgress st).1
  = {| learning_progress :=
         if autoSave (settings st) then Some ∅ else None;
       learning_settings := learning_settings (localStorage st) |}.
Proof.
  unfold call_resetProgress, commit, effects. simpl.
  by destruct (autoSave (settings st)).
Qed.

End Persistence.

(** C6. [updateSettings] always writes the settings record to storage,
    whatever [autoSave] was and becomes; [updateProgress] writes the
    progress map exactly when [autoSave] is true and otherwise leaves
    storage as it was.  In particular, with [autoSave = false] a call of
    [updateProgress] leaves the persisted progress entry unchanged and a
    following [updateSettings({autoSave: true})] still persists the
    settings record. *)
Theorem C6_settings_persist_regardless (st : Provider) :
  (∀ updates,
     setItem_settings (updateSettings updates (settings st))
       ∈ (call_updateSettings updates st).2
     ∧ learning_settings (localStorage (call_updateSettings updates st).1)
       = Some (updateSettings updates (settings st)))
  ∧ (∀ hookId updates now,
       (call_updateProgress hookId updates now st).2
       = if autoSave (settings st)
         then [setItem_progress
                 (updateProgress hookId updates now (progress st))]
         else [])
  ∧ (∀ hookId updates now,
       autoSave (settings st) = true →
       learning_progress
         (localStorage (call_updateProgress hookId updates now st).1)
       = Some (updateProgress hookId updates now (progress st)))
  ∧ (∀ hookId updates now,
       autoSave (settings st) = false →
       let st1 := (call_updateProgress hookId updates now st).1 in
       let st2 := (call_updateSettings autoSave_on st1).1 in
       localStorage st1 = localStorage st
       ∧ autoSave (settings st2) = true
       ∧ learning_settings (localStorage st2) = Some (settings st2)).
Proof.
  split; [|split; [|split]].
  - intros updates. split.
    + rewrite call_updateSettings_calls. set_solver.
    + apply call_updateSettings_stored.
  - intros. apply call_updateProgress_calls.
  - intros hookId updates now Hon.
    by rewrite call_updateProgress_storage, Hon.
  - intros hookId updates now Hoff st1 st2. subst st1 st2.
    split; [|split].
    + by rewrite call_updateProgress_storage, Hoff.
    + reflexivity.
    + by rewrite call_updateSettings_stored.
Qed.

(** C6 at a provider whose [autoSave] was switched off: recording time
    writes nothing, switching [autoSave] back on writes the settings. *)
Lemma C6_settings_persist_regardless_witness :
  autoSave (settings manual_provider) = false
  ∧ localStorage
      (call_updateProgress "useEffect" (write_time 30) 2000%Z
         manual_provider).1
    = localStorage manual_provider
  ∧ learning_settings
      (localStorage
         (call_updateSettings autoSave_on
            (call_updateProgress "useEffect" (write_time 30) 2000%Z
               manual_provider).1).1)
    = Some {| theme := Light; difficulty := All; showHints := true;
              autoSave := true; soundEnabled := false |}.
Proof.
  assert (autoSave (settings manual_provider) = false) as Hoff
    by reflexivity.
  destruct (proj2 (proj2 (proj2
              (C6_settings_persist_regardless manual_provider)))
              "useEffect" (write_time 30) 2000%Z Hoff) as (H1 & _ & H3).
  split; [exact Hoff|]. split; [exact H1|exact H3].
Defined.

(** C8. [resetProgress] is idempotent: after one call and after a second
    one the progress map is empty, the second call changes nothing, and
    right after a reset [getTotalTimeSpent] is 0 and
    [getCompletionPercentage] is 0. *)
Theorem C8_reset_idempotent (st : Provider) :
  progress (call_resetProgress st).1 = ∅
  ∧ progress (call_resetProgress (call_resetProgress st).1).1 = ∅
  ∧ (call_resetProgress (call_resetProgress st).1).1
    = (call_resetProgress st).1
  ∧ getTotalTimeSpent (progress (call_resetProgress st).1) = 0%Z
  ∧ getCompletionPercentage (progress (call_resetProgress st).1) = of_Z 0.
Proof.
  split; [reflexivity|]. split; [reflexivity|]. split.
  - unfold call_resetProgress, commit, effects. simpl.
    by destruct (autoSave (settings st)).
  - split; [reflexivity|].
    change (progress (call_resetProgress st).1) with (∅ : LearningProgress).
    rewrite getCompletionPercentage_percent.
    unfold completed_count. rewrite map_filter_empty, map_size_empty.
    vm_compute. reflexivity.
Qed.

(** C9 (as amended). [resetProgress] empties the progress map, calls
    [removeItem] on the persisted progress entry and leaves the settings
    untouched, in memory and in storage.  The entry stays removed when
    [autoSave] is false; when [autoSave] is true the persistence effect of
    the render that follows writes it back, holding the empty map.  Either
    way the provider would load the empty map from storage. *)
Theorem C9_reset_frame (st : Provider) :
  progress (call_resetProgress st).1 = ∅
  ∧ settings (call_resetProgress st).1 = settings st
  ∧ learning_settings (localStorage (call_resetProgress st).1)
    = learning_settings (localStorage st)
  ∧ (call_resetProgress st).2
    = removeItem_progress
        :: (if autoSave (settings st) then [setItem_progress ∅] else [])
  ∧ learning_progress (localStorage (call_resetProgress st).1)
    = (if autoSave (settings st) then Some ∅ else None)
  ∧ load_progress (localStorage (call_resetProgress st).1) = ∅.
Proof.
  split; [reflexivity|]. split; [reflexivity|].
  rewrite call_resetProgress_calls, call_resetProgress_storage. simpl.
  repeat split. unfold load_progress. simpl.
  by destruct (autoSave (settings st)).
Qed.

(** C9, as stated, fails: with the default [autoSave = true] the persisted
    progress entry is present after [resetProgress]. *)
Lemma C9_entry_written_back :
  autoSave (settings fresh_provider) = true
  ∧ learning_progress (localStorage (call_resetProgress fresh_provider).1)
    = Some ∅
  ∧ learning_progress (localStorage (call_resetProgress fresh_provider).1)
    ≠ None.
Proof. repeat split. discriminate. Qed.

(** ** Recorded time *)

Section RecordedTime.
Implicit Types (p prev : LearningProgress) (h : string).

Lemma stored_time_updateProgress hookId u now prev h :
  stored_time (updateProgress hookId u now prev) h
  = if decide (hookId = h)
    then default (stored_time prev h) (u_timeSpent u)
    else stored_time prev h.
Proof.
  unfold stored_time. destruct (decide (hookId = h)) as [->|Hne].
  - rewrite updateProgress_lookup. simpl.
    by destruct (prev !! h), (u_timeSpent u).
  - by rewrite updateProgress_lookup_ne.
Qed.

(** An update that carries no [timeSpent] leaves every recorded time as
    it was. *)
Lemma stored_time_untouched hookId u now prev h :
  u_timeSpent u = None →
  stored_time (updateProgress hookId u now prev) h = stored_time prev h.
Proof.
  intros Hu. rewrite stored_time_updateProgress, Hu.
  by destruct (decide _).
Qed.

Lemma effect_cleanup_stored_time hookId start seen now prev h :
  hookId ≠ "" →
  stored_time (effect_cleanup hookId (Some start) seen now prev) h
  = if decide (hookId = h)
    then (stored_time seen hookId + (now - start) / 1000)%Z
    else stored_time prev h.
Proof.
  intros Hh. unfold effect_cleanup, truthy.
  rewrite bool_decide_eq_true_2 by done.
  rewrite stored_time_updateProgress. reflexivity.
Qed.

(** Only the cleanup writes the recorded time. *)
Lemma perform_other_stored_time now a p h :
  (∀ h0 start seen, a ≠ Cleanup h0 start seen) →
  stored_time (perform now a p) h = stored_time p h.
Proof.
  destruct a as [h0|h0 start seen|h0|h0|h0 score|h0 n]; simpl; intros Ha;
    unfold effect_open, toggleBookmark, markAsCompleted, handleQuizComplete,
      saveNotes;
    try (destruct (truthy h0); simpl;
         by rewrite ?stored_time_untouched by done).
  by destruct (Ha h0 start seen).
Qed.

Lemma perform_stored_time now a p h :
  cleanup_sound p now a →
  (stored_time p h ≤ stored_time (perform now a p) h)%Z.
Proof.
  destruct a as [h0|h0 [start|] seen|h0|h0|h0 score|h0 n]; simpl;
    intros Hsound;
    unfold effect_open, effect_cleanup, toggleBookmark, markAsCompleted,
      handleQuizComplete, saveNotes;
    try (destruct (truthy h0) eqn:Hh0; simpl;
         rewrite ?stored_time_untouched by done; lia).
  destruct (truthy h0) eqn:Hh0; [|lia].
  rewrite stored_time_updateProgress. simpl.
  destruct (decide (h0 = h)) as [->|]; [|lia].
  destruct Hsound as [Hclock Hseen].
  assert (0 ≤ (now - start) / 1000)%Z by (apply Z.div_pos; lia).
  unfold stored_time in *. lia.
Qed.

Lemma run_snoc tr e p :
  run (tr ++ [e]) p = perform e.1 e.2 (run tr p).
Proof. unfold run. by rewrite foldl_app. Qed.




End RecordedTime.




(** ** Quiz completion *)

Section QuizCompletion.

Lemma SFcompare_swap (x y : number) :
  SFcompare y x = CompOpp <$> SFcompare x y.
Proof.
  destruct x as [sx|sx| |sx mx ex], y as [sy|sy| |sy my ey]; simpl;
    try (by repeat match goal with s : bool |- _ => destruct s end).
  destruct sx, sy; simpl; try reflexivity;
    rewrite (Z.compare_antisym ex ey);
    destruct (ex ?= ey)%Z; simpl; try reflexivity;
    by rewrite (Pos.compare_cont_antisym mx my Eq).
Qed.

(** [x < y] excludes [x >= y]. *)
Lemma flt_not_fge (x y : number) : flt x y = true → fge x y = false.
Proof.
  unfold flt, fge, SFltb, SFleb. rewrite (SFcompare_swap x y).
  by destruct (SFcompare x y) as [[]|].
Qed.

Lemma handleQuizComplete_lookup selectedHook score now prev :
  selectedHook ≠ "" →
  handleQuizComplete selectedHook score now prev !! selectedHook
  = Some (spread_update
            (spread_record (default_record now) (prev !! selectedHook))
            {| u_completed := Some (fge score (of_Z 70));
               u_timeSpent := None; u_lastVisited := None;
               u_notes := None; u_bookmarked := None |}).
Proof.
  intros Hh. unfold handleQuizComplete, truthy.
  rewrite bool_decide_eq_true_2 by done. apply updateProgress_lookup.
Qed.

End QuizCompletion.

(** C10. For a selected topic, [handleQuizComplete] overwrites [completed]
    with [score >= 70] whatever the flag was; so for a topic whose record
    has [completed = true], finishing a quiz with a score below 70 leaves
    the record with [completed = false] and its other fields unchanged. *)
Theorem C10_quiz_overwrites_completed (selectedHook : string)
    (score : number) (now : Date) (prev : LearningProgress) :
  selectedHook ≠ "" →
  completed <$> handleQuizComplete selectedHook score now prev !! selectedHook
  = Some (fge score (of_Z 70))
  ∧ ∀ r, prev !! selectedHook = Some r → completed r = true →
         flt score (of_Z 70) = true →
         handleQuizComplete selectedHook score now prev !! selectedHook
         = Some {| completed := false; timeSpent := timeSpent r;
                   lastVisited := lastVisited r; notes := notes r;
                   bookmarked := bookmarked r |}.
Proof.
  intros Hh. rewrite handleQuizComplete_lookup by done. split.
  - reflexivity.
  - intros r Hr _ Hlt. rewrite Hr. apply flt_not_fge in Hlt.
    unfold spread_update, spread_record. cbn -[fge of_Z].
    by rewrite Hlt.
Qed.

(** C10 at a completed topic and a quiz score of 67. *)
Lemma C10_quiz_overwrites_completed_witness :
  "useState" ≠ ""
  ∧ completed <$> four_completed !! "useState" = Some true
  ∧ completed
      <$> handleQuizComplete "useState" (of_Z 67) 5000%Z four_completed
          !! "useState"
    = Some false.
Proof.
  assert ("useState" ≠ "") as Hh by discriminate.
  split; [exact Hh|]. split; [reflexivity|].
  exact (proj1 (C10_quiz_overwrites_completed "useState" (of_Z 67) 5000%Z
                  four_completed Hh)).
Defined.


(** * Further properties of the code *)

(** ** QuizModal: selecting answers *)

Section Selecting.
Implicit Types (a : list (option Z)) (st : State).

Lemma array_set_length a i v :
  length (array_set a i v) = length a `max` S i.
Proof.
  unfold array_set. destruct (Nat.ltb_spec i (length a)).
  - rewrite length_insert. lia.
  - rewrite !length_app, length_replicate. simpl. lia.
Qed.

Lemma array_get_set_eq a i v : array_get (array_set a i v) i = Some v.
Proof.
  unfold array_get, array_set. destruct (Nat.ltb_spec i (length a)).
  - by rewrite list_lookup_insert_eq.
  - rewrite lookup_app_r by lia.
    rewrite lookup_app_r by (rewrite length_replicate; lia).
    rewrite length_replicate.
    by replace (i - length a - (i - length a)) with 0 by lia.
Qed.

Lemma array_get_set_ne a i j v :
  i ≠ j → array_get (array_set a i v) j = array_get a j.
Proof.
  intros Hne. unfold array_get, array_set.
  destruct (Nat.ltb_spec i (length a)).
  - by rewrite list_lookup_insert_ne.
  - destruct (decide (j < length a)).
    + by rewrite lookup_app_l.
    + rewrite (lookup_ge_None_2 a j) by lia.
      rewrite lookup_app_r by lia.
      destruct (decide (j - length a < i - length a)).
      * rewrite lookup_app_l by (rewrite length_replicate; lia).
        by rewrite lookup_replicate_2.
      * rewrite lookup_app_r by (rewrite length_replicate; lia).
        rewrite length_replicate. rewrite lookup_ge_None_2; [done|].
        simpl. lia.
Qed.

Lemma array_set_set a i v w :
  array_set (array_set a i v) i w = array_set a i w.
Proof.
  unfold array_set at 1.
  destruct (Nat.ltb_spec i (length (array_set a i v))) as [_|Hge];
    [|rewrite array_set_length in Hge; lia].
  unfold array_set. destruct (Nat.ltb_spec i (length a)).
  - by rewrite list_insert_insert_eq.
  - rewrite insert_app_r_alt by lia.
    rewrite insert_app_r_alt by (rewrite length_replicate; lia).
    rewrite length_replicate.
    by replace (i - length a - (i - length a)) with 0 by lia.
Qed.

End Selecting.

(** X1. After [handleAnswerSelect] the current question reads the selected
    option and every other question reads what it read before; the array
    grows just enough to hold the current question, and nothing else of
    the state changes. *)
Theorem X1_select_then_read (answerIndex : Z) (st : State) :
  (0 ≤ currentQuestion st)%Z →
  array_get (selectedAnswers (handleAnswerSelect answerIndex st))
    (Z.to_nat (currentQuestion st)) = Some answerIndex
  ∧ (∀ i, i ≠ Z.to_nat (currentQuestion st) →
       array_get (selectedAnswers (handleAnswerSelect answerIndex st)) i
       = array_get (selectedAnswers st) i)
  ∧ length (selectedAnswers (handleAnswerSelect answerIndex st))
    = length (selectedAnswers st) `max` S (Z.to_nat (currentQuestion st))
  ∧ currentQuestion (handleAnswerSelect answerIndex st) = currentQuestion st
  ∧ showResults (handleAnswerSelect answerIndex st) = showResults st
  ∧ quizCompleted (handleAnswerSelect answerIndex st) = quizCompleted st.
Proof.
  intros Hcq. unfold handleAnswerSelect. simpl.
  destruct (Z.leb_spec 0 (currentQuestion st)); [|lia].
  repeat split.
  - apply array_get_set_eq.
  - intros i Hi. by apply array_get_set_ne.
  - apply array_set_length.
Qed.

(** X1 at the initial state: the first selection. *)
Lemma X1_select_then_read_witness :
  (0 ≤ currentQuestion initial)%Z
  ∧ array_get (selectedAnswers (handleAnswerSelect 2 initial)) 0 = Some 2%Z.
Proof.
  assert (0 ≤ currentQuestion initial)%Z as H0 by reflexivity.
  split; [exact H0|]. exact (proj1 (X1_select_then_read 2 initial H0)).
Defined.

(** X2. Selecting again for the same question overwrites: two selections in
    a row leave the state that the second alone would leave. *)
Theorem X2_reselect_overwrites (a b : Z) (st : State) :
  handleAnswerSelect b (handleAnswerSelect a st) = handleAnswerSelect b st.
Proof.
  unfold handleAnswerSelect. simpl.
  destruct (0 <=? currentQuestion st)%Z; [|done].
  by rewrite array_set_set.
Qed.

(** ** QuizModal: what the controls maintain *)

Section Controls.
Implicit Types (questions : list Question) (st : State) (c : control).

Lemma array_get_is_Some_lt (a : list (option Z)) i :
  is_Some (array_get a i) → i < length a.
Proof.
  unfold array_get. intros [v Hv]. apply lookup_lt_is_Some.
  destruct (a !! i); [by eexists|done].
Qed.

Lemma well_formed_initial questions :
  questions ≠ [] → well_formed questions initial.
Proof.
  intros Hne. unfold well_formed. simpl.
  destruct questions; [done|]. simpl. repeat split; try lia; try done.
Qed.

Lemma well_formed_press questions st c :
  questions ≠ [] → well_formed questions st →
  available questions st c = true →
  well_formed questions (press questions c st).1.
Proof.
  intros Hne (Hcq & Hreach & Hlen & Hsel & Hres) Hav.
  destruct c as [index| | | |]; simpl in *.
  - (* an option of the current question *)
    apply andb_true_iff in Hav as [Hview Hopt].
    apply negb_true_iff in Hview.
    unfold currentQ in Hopt.
    destruct (Z.ltb_spec (currentQuestion st) 0); [lia|].
    destruct (questions !! Z.to_nat (currentQuestion st)) as [q|] eqn:Hq;
      [|done].
    apply bool_decide_eq_true in Hopt.
    unfold handleAnswerSelect, well_formed. simpl.
    destruct (Z.leb_spec 0 (currentQuestion st)); [|lia].
    rewrite array_set_length.
    repeat split; try lia.
    + intros i q' Hq' Hi.
      destruct (decide (i = Z.to_nat (currentQuestion st))) as [->|Hne'].
      * exists index. rewrite Hq in Hq'. injection Hq' as <-.
        split; [|done].
        pose proof (array_get_set_eq (selectedAnswers st)
                      (Z.to_nat (currentQuestion st)) (Z.of_nat index))
          as Hget.
        unfold array_get in Hget.
        destruct (array_set _ _ _ !! _) as [[v|]|]; simpl in Hget;
          congruence.
      * assert (i < length (selectedAnswers st)) as Hi' by lia.
        destruct (Hsel i q' Hq' Hi') as (a & Ha & Hopt').
        exists a. split; [|done].
        unfold array_set.
        destruct (Nat.ltb_spec (Z.to_nat (currentQuestion st))
                    (length (selectedAnswers st))).
        -- by rewrite list_lookup_insert_ne.
        -- by rewrite lookup_app_l.
    + congruence.
  - (* Next *)
    apply andb_true_iff in Hav as [Hview Hans].
    apply negb_true_iff in Hview. apply bool_decide_eq_true in Hans.
    destruct (Z.ltb_spec (currentQuestion st) 0); [lia|].
    apply array_get_is_Some_lt in Hans.
    unfold nextQuestion, well_formed.
    destruct (Z.ltb_spec (currentQuestion st)
                (Z.of_nat (length questions) - 1)); simpl.
    + repeat split; try lia; try done.
    + repeat split; try lia; try done.
  - (* Previous *)
    apply andb_true_iff in Hav as [Hview Hfirst].
    apply negb_true_iff in Hfirst. apply Z.eqb_neq in Hfirst.
    unfold previousQuestion, well_formed.
    destruct (Z.ltb_spec 0 (currentQuestion st)); simpl; [|lia].
    repeat split; try lia; try done.
  - (* Retake *)
    by apply well_formed_initial.
  - done.
Qed.

Lemma well_formed_presses questions cs st st' :
  questions ≠ [] → well_formed questions st →
  presses questions cs st = Some st' → well_formed questions st'.
Proof.
  intros Hne. revert st. induction cs as [|c cs IH]; intros st Hwf; simpl.
  - by intros [= <-].
  - destruct (available questions st c) eqn:Hav; [|done].
    apply IH. by apply well_formed_press.
Qed.

End Controls.

(** X3. Through the controls as they are rendered (an option button of the
    current question, Next unless the question is unanswered, Previous
    unless at the first question, Retake on the results), a quiz with at
    least one question always keeps its index inside the list and its
    selections a gap-free prefix of valid option indices no longer than the
    list; so the results are never shown with an unanswered question. *)
Theorem X3_controls_keep_quiz_well_formed (questions : list Question)
    (cs : list control) (st : State) :
  questions ≠ [] →
  presses questions cs initial = Some st →
  well_formed questions st
  ∧ (showResults st = true →
     ∀ i q, questions !! i = Some q →
       ∃ a : nat, array_get (selectedAnswers st) i = Some (Z.of_nat a)
                  ∧ a < length (q_options q)).
Proof.
  intros Hne Hrun.
  assert (well_formed questions st) as Hwf
    by (eapply well_formed_presses; eauto using well_formed_initial).
  split; [exact Hwf|]. intros Hres i q Hq.
  destruct Hwf as (_ & _ & _ & Hsel & Hall).
  destruct (Hsel i q Hq) as (a & Ha & Hopt).
  { rewrite (Hall Hres). by eapply lookup_lt_Some. }
  exists a. split; [|done]. unfold array_get. by rewrite Ha.
Qed.

(** X3 on a run through a three-question quiz: answer, go on, come back,
    change the answer, and finish. *)
Lemma X3_controls_keep_quiz_well_formed_witness :
  quiz3_options ≠ []
  ∧ presses quiz3_options
      [SelectOption 1; Next; SelectOption 0; Previous; SelectOption 3; Next;
       Next; SelectOption 2; Next] initial
    = Some {| currentQuestion := 2;
              selectedAnswers := [Some 3; Some 0; Some 2]%Z;
              showResults := true; quizCompleted := true |}
  ∧ well_formed quiz3_options
      {| currentQuestion := 2; selectedAnswers := [Some 3; Some 0; Some 2]%Z;
         showResults := true; quizCompleted := true |}.
Proof.
  assert (quiz3_options ≠ []) as Hne by discriminate.
  assert (presses quiz3_options
            [SelectOption 1; Next; SelectOption 0; Previous; SelectOption 3;
             Next; Next; SelectOption 2; Next] initial
          = Some {| currentQuestion := 2;
                    selectedAnswers := [Some 3; Some 0; Some 2]%Z;
                    showResults := true; quizCompleted := true |}) as Hrun
    by (vm_compute; reflexivity).
  split; [exact Hne|]. split; [exact Hrun|].
  exact (proj1 (X3_controls_keep_quiz_well_formed _ _ _ Hne Hrun)).
Defined.

(** ** QuizModal: the marks of the score *)

Section Marks.

Lemma score_marks_table : score_marks_ok 1 39 = true.
Proof. vm_compute. reflexivity. Qed.

Lemma score_marks_sound n c :
  1 ≤ n ≤ 39 → c ≤ n →
  (percent (Z.of_nat c) (Z.of_nat n) = of_Z 100 ↔ c = n)
  ∧ (percent (Z.of_nat c) (Z.of_nat n) = of_Z 0 ↔ c = 0)
  ∧ (fge (percent (Z.of_nat c) (Z.of_nat n)) (of_Z 70) = true
     ↔ 139 * n ≤ 200 * c).
Proof.
  intros Hn Hc.
  pose proof (proj1 (forallb_forall _ _) score_marks_table n) as Hrow.
  assert (In n (seq 1 39)) as Hin by (apply in_seq; lia).
  specialize (Hrow Hin).
  pose proof (proj1 (forallb_forall _ _) Hrow c) as Hcell.
  assert (In c (seq 0 (S n))) as Hin' by (apply in_seq; lia).
  specialize (Hcell Hin').
  apply andb_true_iff in Hcell as [Hcell H70].
  apply andb_true_iff in Hcell as [H100 H0].
  apply Bool.eqb_prop in H100, H0, H70.
  repeat split.
  - intros Heq. apply Nat.eqb_eq. rewrite <- H100.
    unfold number_eqb. by destruct (number_eq_dec _ _).
  - intros ->. rewrite Nat.eqb_refl in H100. by apply number_eqb_eq.
  - intros Heq. apply Nat.eqb_eq. rewrite <- H0.
    unfold number_eqb. by destruct (number_eq_dec _ _).
  - intros ->. by apply number_eqb_eq.
  - intros Hge. apply Nat.leb_le. by rewrite <- H70.
  - intros Hle. rewrite H70. by apply Nat.leb_le.
Qed.

End Marks.

(** X4. For every quiz of 1 to 39 questions the score is 100 exactly when
    every question was answered correctly and 0 exactly when none was. *)
Theorem X4_score_extremes (questions : list Question)
    (selectedAnswers : list (option Z)) :
  1 ≤ length questions ≤ 39 →
  (calculateScore questions selectedAnswers = of_Z 100
   ↔ correctCount questions selectedAnswers = length questions)
  ∧ (calculateScore questions selectedAnswers = of_Z 0
     ↔ correctCount questions selectedAnswers = 0).
Proof.
  intros Hlen. rewrite calculateScore_percent.
  pose proof (correctCount_le questions selectedAnswers) as Hle.
  destruct (score_marks_sound _ _ Hlen Hle) as (H100 & H0 & _).
  by split.
Qed.

(** X4 on the three-question quiz: two of three is not 100. *)
Lemma X4_score_extremes_witness :
  1 ≤ length quiz3 ≤ 39
  ∧ calculateScore quiz3 [Some 1; Some 2; Some 1]%Z ≠ of_Z 100.
Proof.
  assert (1 ≤ length quiz3 ≤ 39) as Hlen by (simpl; lia).
  split; [exact Hlen|]. intros Heq.
  apply (proj1 (proj1 (X4_score_extremes quiz3 [Some 1; Some 2; Some 1]%Z
                         Hlen))) in Heq.
  vm_compute in Heq. discriminate.
Defined.

(** X5. Finishing a quiz of 1 to 39 questions on a selected topic leaves the
    topic completed exactly when [200 * correct >= 139 * total], that is
    when the score reaches 70; on a three-question quiz, as all quizzes of
    the repository are, that is only with all three answers correct. *)
Theorem X5_quiz_pass_mark (selectedHook : string) (questions : list Question)
    (selectedAnswers : list (option Z)) (now : Date)
    (prev : LearningProgress) :
  selectedHook ≠ "" → 1 ≤ length questions ≤ 39 →
  completed
    <$> handleQuizComplete selectedHook
          (calculateScore questions selectedAnswers) now prev !! selectedHook
  = Some (bool_decide (139 * length questions
                       ≤ 200 * correctCount questions selectedAnswers))
  ∧ (length questions = 3 →
     (139 * length questions ≤ 200 * correctCount questions selectedAnswers
      ↔ correctCount questions selectedAnswers = 3)).
Proof.
  intros Hh Hlen. split.
  - rewrite handleQuizComplete_lookup by done. simpl. f_equal.
    rewrite calculateScore_percent.
    pose proof (correctCount_le questions selectedAnswers) as Hle.
    destruct (score_marks_sound _ _ Hlen Hle) as (_ & _ & H70).
    destruct (fge _ _) eqn:Hge.
    + symmetry. apply bool_decide_eq_true. by apply H70.
    + symmetry. apply bool_decide_eq_false. intros Hpass.
      apply H70 in Hpass. congruence.
  - intros H3. pose proof (correctCount_le questions selectedAnswers). lia.
Qed.

(** X5 on the three-question quiz with two answers correct: not completed. *)
Lemma X5_quiz_pass_mark_witness :
  "useState" ≠ "" ∧ 1 ≤ length quiz3 ≤ 39
  ∧ completed
      <$> handleQuizComplete "useState"
            (calculateScore quiz3 [Some 1; Some 2; Some 1]%Z) 0%Z ∅
          !! "useState"
    = Some false.
Proof.
  assert ("useState" ≠ "") as Hh by discriminate.
  assert (1 ≤ length quiz3 ≤ 39) as Hlen by (simpl; lia).
  split; [exact Hh|]. split; [exact Hlen|].
  exact (proj1 (X5_quiz_pass_mark "useState" quiz3
                  [Some 1; Some 2; Some 1]%Z 0%Z ∅ Hh Hlen)).
Defined.

(** ** The progress map: one topic at a time *)

(** X6. [updateProgress] creates or replaces the record of [hookId] and
    nothing else: the record exists afterwards, the topics that have a
    record are those that had one and [hookId], and with [hookId] taken out
    the map is the one before. *)
Theorem X6_update_touches_one_topic (hookId : string) (u : ProgressUpdate)
    (now : Date) (prev : LearningProgress) :
  is_Some (updateProgress hookId u now prev !! hookId)
  ∧ dom (updateProgress hookId u now prev) = {[hookId]} ∪ dom prev
  ∧ delete hookId (updateProgress hookId u now prev) = delete hookId prev.
Proof.
  unfold updateProgress. repeat split.
  - rewrite lookup_insert_eq. by eexists.
  - apply dom_insert_L.
  - apply delete_insert_eq.
Qed.

(** ** Total time *)

Section TotalTime.
Implicit Types (p prev : LearningProgress) (h : string).

Lemma foldl_time_sum (l : list ProgressRecord) (a : Z) :
  foldl (λ total r, total + timeSpent r)%Z a l
  = (a + foldr (λ r s, timeSpent r + s) 0 l)%Z.
Proof.
  revert a. induction l as [|r l IH]; intros a; simpl; [lia|].
  rewrite IH. lia.
Qed.

Lemma time_sum_perm (l k : list ProgressRecord) :
  l ≡ₚ k →
  foldr (λ r s, timeSpent r + s)%Z 0%Z l
  = foldr (λ r s, timeSpent r + s)%Z 0%Z k.
Proof. induction 1; simpl; lia. Qed.

Lemma getTotalTimeSpent_empty : getTotalTimeSpent ∅ = 0%Z.
Proof. reflexivity. Qed.

Lemma getTotalTimeSpent_insert_fresh p h r :
  p !! h = None →
  getTotalTimeSpent (<[h := r]> p) = (getTotalTimeSpent p + timeSpent r)%Z.
Proof.
  intros Hh. unfold getTotalTimeSpent, Object_values.
  rewrite !foldl_time_sum.
  rewrite (time_sum_perm _ (r :: (map_to_list p).*2)).
  - simpl. lia.
  - by rewrite map_to_list_insert.
Qed.

Lemma getTotalTimeSpent_delete p h :
  getTotalTimeSpent p
  = (getTotalTimeSpent (delete h p) + stored_time p h)%Z.
Proof.
  unfold stored_time. destruct (p !! h) as [r|] eqn:Hh; simpl.
  - rewrite <- (insert_delete_id p h r Hh) at 1.
    by rewrite getTotalTimeSpent_insert_fresh by apply lookup_delete_eq.
  - rewrite delete_id by done. lia.
Qed.

Lemma getTotalTimeSpent_insert p h r :
  getTotalTimeSpent (<[h := r]> p)
  = (getTotalTimeSpent p - stored_time p h + timeSpent r)%Z.
Proof.
  rewrite <- (insert_delete_eq p h r).
  rewrite getTotalTimeSpent_insert_fresh by apply lookup_delete_eq.
  rewrite (getTotalTimeSpent_delete p h). lia.
Qed.

Lemma getTotalTimeSpent_updateProgress hookId u now prev :
  getTotalTimeSpent (updateProgress hookId u now prev)
  = (getTotalTimeSpent prev
     + (default (stored_time prev hookId) (u_timeSpent u)
        - stored_time prev hookId))%Z.
Proof.
  unfold updateProgress. rewrite getTotalTimeSpent_insert.
  unfold stored_time. simpl.
  destruct (prev !! hookId), (u_timeSpent u); simpl; lia.
Qed.

Lemma getTotalTimeSpent_nonneg p :
  (∀ h, 0 ≤ stored_time p h)%Z → (0 ≤ getTotalTimeSpent p)%Z.
Proof.
  induction p as [|h r p Hh IH] using map_ind; intros Hall.
  - by rewrite getTotalTimeSpent_empty.
  - rewrite getTotalTimeSpent_insert_fresh by done.
    assert (0 ≤ timeSpent r)%Z.
    { specialize (Hall h). unfold stored_time in Hall.
      by rewrite lookup_insert_eq in Hall. }
    assert (0 ≤ getTotalTimeSpent p)%Z; [|lia].
    apply IH. intros h'. specialize (Hall h'). unfold stored_time in *.
    destruct (decide (h = h')) as [<-|Hne].
    + by rewrite Hh.
    + by rewrite lookup_insert_ne in Hall.
Qed.

(** An action changes the total by what it changes on one topic. *)
Lemma perform_total now a p :
  ∃ h, getTotalTimeSpent (perform now a p)
       = (getTotalTimeSpent p
          + (stored_time (perform now a p) h - stored_time p h))%Z.
Proof.
  assert (∀ hookId u,
            getTotalTimeSpent (updateProgress hookId u now p)
            = (getTotalTimeSpent p
               + (stored_time (updateProgress hookId u now p) hookId
                  - stored_time p hookId))%Z) as Hone.
  { intros hookId u. rewrite getTotalTimeSpent_updateProgress.
    rewrite stored_time_updateProgress. by rewrite decide_True. }
  destruct a as [h0|h0 [start|] seen|h0|h0|h0 score|h0 n]; exists h0; simpl;
    unfold effect_open, effect_cleanup, toggleBookmark, markAsCompleted,
      handleQuizComplete, saveNotes;
    try (destruct (truthy h0); simpl); try apply Hone; lia.
Qed.

Lemma run_total tr p :
  sound_trace p tr → (getTotalTimeSpent p ≤ getTotalTimeSpent (run tr p))%Z.
Proof.
  revert p. induction tr as [|e tr IH]; intros p; simpl; [lia|].
  intros [He Hrest]. etransitivity; [|apply IH, Hrest].
  destruct (perform_total e.1 e.2 p) as [h ->].
  pose proof (perform_stored_time e.1 e.2 p h He). lia.
Qed.

End TotalTime.

(** ** Seconds in double precision *)

Section DoubleSeconds.
Local Open Scope Z_scope.

Lemma canon_shl N m e :
  0 < N → Z.log2 N ≤ 52 → Zpos m = N * 2 ^ (52 - Z.log2 N) →
  e ≤ Z.log2 N - 52 →
  Zpos (shl_align m (Z.log2 N - 52) e).1 = N * 2 ^ (- e).
Proof.
  intros HN Hlog Hm He.
  destruct (shl_align_spec m (Z.log2 N - 52) e He) as (mz & -> & Hmz).
  simpl. rewrite Hmz, Hm, <- Z.mul_assoc, <- Z.pow_add_r by lia.
  f_equal. f_equal. lia.
Qed.

(** Normalizing an integer below 2^53 that is given with [k] more binary
    places. *)
Lemma binary_normalize_scaled (N k : Z) :
  0 ≤ N < 2 ^ 53 → 0 ≤ k ≤ 52 →
  binary_normalize prec emax (N * 2 ^ k) (- k) false = of_Z N.
Proof.
  intros HN Hk.
  destruct (Z.eq_dec N 0) as [->|HN0]; [reflexivity|].
  assert (Z.log2 N ≤ 52) as Hlog
    by (apply Z.lt_succ_r, Z.log2_lt_pow2; lia).
  pose proof (Z.log2_nonneg N) as Hlog0.
  destruct (of_Z_canon N ltac:(lia)) as (m & -> & Hm).
  pose proof (canon_log2 N m ltac:(lia) Hlog Hm) as Hmlog.
  rewrite Z.sub_0_r.
  assert (0 < N * 2 ^ k) as Hpos
    by (apply Z.mul_pos_pos; [lia|apply Z.pow_pos_nonneg; lia]).
  destruct (N * 2 ^ k) as [|M|M] eqn:HM; try lia.
  unfold binary_normalize, binary_round.
  rewrite digits2_log2, <- HM.
  rewrite Z.log2_mul_pow2 by lia.
  rewrite fexp_normal by lia.
  destruct (Z_le_gt_dec (- k) (k + Z.log2 N + 1 + - k - 53)) as [Hle|Hgt].
  - (* enough places: nothing to shift *)
    assert (shl_align M (- k) (k + Z.log2 N + 1 + - k - 53) = (M, - k))
      as ->.
    { unfold shl_align.
      destruct (k + Z.log2 N + 1 + - k - 53 - - k) as [|d|d] eqn:Hd;
        try reflexivity. lia. }
    rewrite <- HM.
    replace (N * 2 ^ k) with (Zpos m * 2 ^ (Z.log2 N - 52 + k)).
    + rewrite binary_round_aux_exact by lia. f_equal. lia.
    + rewrite Hm, <- Z.mul_assoc, <- Z.pow_add_r by lia.
      f_equal. f_equal. lia.
  - (* the mantissa is shifted to 53 bits *)
    destruct (shl_align_spec M (- k) (k + Z.log2 N + 1 + - k - 53))
      as (mz & -> & Hmz); [lia|].
    assert (mz = m) as ->.
    { apply Pos2Z.inj. rewrite Hmz, <- HM, Hm.
      rewrite <- Z.mul_assoc, <- Z.pow_add_r by lia.
      f_equal. f_equal. lia. }
    pose proof (binary_round_aux_exact false m
                  (k + Z.log2 N + 1 + - k - 53) 0 Hmlog) as Hround.
    rewrite Z.pow_0_r, Z.mul_1_r, Z.add_0_r in Hround.
    rewrite Hround by lia. f_equal. lia.
Qed.

(** Additions and subtractions of whole numbers below 2^53 are exact. *)
Lemma fadd_exact a b :
  0 ≤ a → 0 ≤ b → a + b < 2 ^ 53 →
  fadd (of_Z a) (of_Z b) = of_Z (a + b).
Proof.
  intros Ha Hb Hsum.
  destruct (Z.eq_dec a 0) as [->|Ha0].
  { rewrite Z.add_0_l. change (of_Z 0) with (S754_zero false).
    destruct (Z.eq_dec b 0) as [->|Hb0]; [reflexivity|].
    destruct (of_Z_canon b ltac:(lia)) as (m & -> & _). reflexivity. }
  destruct (Z.eq_dec b 0) as [->|Hb0].
  { rewrite Z.add_0_r. change (of_Z 0) with (S754_zero false).
    destruct (of_Z_canon a ltac:(lia)) as (m & -> & _). reflexivity. }
  assert (∀ n, 0 < n < 2 ^ 53 → Z.log2 n ≤ 52) as Hlog52.
  { intros n Hn. apply Z.lt_succ_r, Z.log2_lt_pow2; lia. }
  pose proof (Hlog52 a ltac:(lia)) as Hla.
  pose proof (Hlog52 b ltac:(lia)) as Hlb.
  pose proof (Z.log2_nonneg a) as Hla0.
  pose proof (Z.log2_nonneg b) as Hlb0.
  destruct (of_Z_canon a ltac:(lia)) as (ma & -> & Hma).
  destruct (of_Z_canon b ltac:(lia)) as (mb & -> & Hmb).
  rewrite !Z.sub_0_r.
  unfold fadd, SFadd. cbn [cond_Zopp].
  set (ez := Z.min (Z.log2 a - 52) (Z.log2 b - 52)).
  rewrite (canon_shl a ma ez), (canon_shl b mb ez) by (unfold ez; lia).
  rewrite <- Z.mul_add_distr_r.
  pose proof (binary_normalize_scaled (a + b) (- ez)) as Hnorm.
  rewrite Z.opp_involutive in Hnorm. apply Hnorm; unfold ez; lia.
Qed.

Lemma fsub_exact a b :
  0 ≤ b ≤ a → a < 2 ^ 53 →
  fsub (of_Z a) (of_Z b) = of_Z (a - b).
Proof.
  intros Hb Ha.
  destruct (Z.eq_dec b 0) as [->|Hb0].
  { rewrite Z.sub_0_r. change (of_Z 0) with (S754_zero false).
    destruct (Z.eq_dec a 0) as [->|Ha0]; [reflexivity|].
    destruct (of_Z_canon a ltac:(lia)) as (m & -> & _). reflexivity. }
  assert (∀ n, 0 < n < 2 ^ 53 → Z.log2 n ≤ 52) as Hlog52.
  { intros n Hn. apply Z.lt_succ_r, Z.log2_lt_pow2; lia. }
  pose proof (Hlog52 a ltac:(lia)) as Hla.
  pose proof (Hlog52 b ltac:(lia)) as Hlb.
  pose proof (Z.log2_nonneg a) as Hla0.
  pose proof (Z.log2_nonneg b) as Hlb0.
  destruct (of_Z_canon a ltac:(lia)) as (ma & -> & Hma).
  destruct (of_Z_canon b ltac:(lia)) as (mb & -> & Hmb).
  rewrite !Z.sub_0_r.
  unfold fsub, SFsub. cbn [cond_Zopp].
  set (ez := Z.min (Z.log2 a - 52) (Z.log2 b - 52)).
  rewrite (canon_shl a ma ez), (canon_shl b mb ez) by (unfold ez; lia).
  rewrite <- Z.mul_sub_distr_r.
  pose proof (binary_normalize_scaled (a - b) (- ez)) as Hnorm.
  rewrite Z.opp_involutive in Hnorm. apply Hnorm; unfold ez; lia.
Qed.

Lemma log2_52 m : 2 ^ 52 ≤ m < 2 ^ 53 → Z.log2 m = 52.
Proof. intros Hm. apply Z.log2_unique; lia. Qed.

Lemma log2_53 m : 2 ^ 53 ≤ m < 2 ^ 54 → Z.log2 m = 53.
Proof. intros Hm. apply Z.log2_unique; lia. Qed.

(** The last step of a rounding: a mantissa of 53 bits is kept, the
    mantissa [2^53] is halved. *)
Lemma round_finish (m : Z) (e : Z) :
  2 ^ 52 ≤ m ≤ 2 ^ 53 → -1074 ≤ e ≤ 970 →
  ∃ M j,
    (let '(mrs, e') := shr_fexp prec emax m e loc_Exact in
     match shr_m mrs with
     | Z0 => S754_zero false
     | Zpos p =>
         if e' <=? emax - prec then S754_finite false p e'
         else S754_infinity false
     | Zneg _ => S754_nan
     end) = S754_finite false M (e + j)
    ∧ Zpos M * 2 ^ j = m ∧ 0 ≤ j ≤ 1 ∧ 2 ^ 52 ≤ Zpos M < 2 ^ 53.
Proof.
  intros Hm He. unfold shr_fexp.
  destruct (Z.eq_dec m (2 ^ 53)) as [->|Hne].
  - exists (4503599627370496%positive), 1.
    change (Zdigits2 (2 ^ 53)) with 54.
    rewrite fexp_normal by lia.
    replace (54 + e - 53 - e) with 1 by lia.
    cbn [shr shr_record_of_loc SpecFloat.iter_pos shr_1 shr_m orb].
    change (2 ^ 53) with (Zpos (xO 4503599627370496)).
    cbn [shr_1 shr_m orb].
    unfold emax, prec.
    destruct (Z.leb_spec (e + 1) (1024 - 53)); [|lia].
    repeat split; lia.
  - destruct m as [|p|p]; try lia.
    exists p, 0.
    rewrite (Zdigits2_log2 (Zpos p)) by lia.
    rewrite (log2_52 (Zpos p)) by lia.
    rewrite fexp_normal by lia.
    replace (52 + 1 + e - 53 - e) with 0 by lia.
    cbn [shr shr_record_of_loc shr_m].
    unfold emax, prec. rewrite Z.add_0_r.
    destruct (Z.leb_spec e (1024 - 53)); [|lia].
    repeat split; lia.
Qed.

Lemma shr_m_of_loc m l : shr_m (shr_record_of_loc m l) = m.
Proof. by destruct l as [|[| |]]. Qed.

Lemma loc_of_loc m l : loc_of_shr_record (shr_record_of_loc m l) = l.
Proof. by destruct l as [|[| |]]. Qed.

Lemma round_nearest_even_step m l :
  round_nearest_even m l = m ∨ round_nearest_even m l = m + 1.
Proof.
  destruct l as [|[| |]]; simpl; auto. destruct (Z.even m); auto.
Qed.

(** Rounding a quotient of 53 or 54 bits: the result is the quotient cut to
    53 bits, or the next mantissa. *)
Lemma binary_round_aux_cut (q e : Z) (l : location) :
  2 ^ 52 ≤ q < 2 ^ 54 → -1074 ≤ e ≤ 960 →
  ∃ M j,
    binary_round_aux prec emax false q e l = S754_finite false M (e + j)
    ∧ 2 ^ 52 ≤ Zpos M < 2 ^ 53 ∧ 0 ≤ j ≤ 2
    ∧ q ≤ Zpos M * 2 ^ j + 2 ^ j - 1
    ∧ Zpos M * 2 ^ j ≤ q + 1.
Proof.
  intros Hq He. unfold binary_round_aux.
  destruct (Z_lt_le_dec q (2 ^ 53)) as [Hlt|Hge].
  - (* 53 bits *)
    unfold shr_fexp at 1.
    rewrite (Zdigits2_log2 q) by lia. rewrite (log2_52 q) by lia.
    rewrite fexp_normal by lia.
    replace (52 + 1 + e - 53 - e) with 0 by lia.
    cbn [shr]. rewrite shr_m_of_loc, loc_of_loc.
    destruct (round_finish (round_nearest_even q l) e) as (M & j & -> & HM);
      [destruct (round_nearest_even_step q l) as [-> | ->]; lia|lia|].
    exists M, j. split; [done|].
    destruct HM as (Hval & Hj & Hbits).
    assert (j = 0 ∨ j = 1) as [-> | ->] by lia;
      destruct (round_nearest_even_step q l) as [Hr | Hr];
      rewrite Hr in Hval; simpl in *; lia.
  - (* 54 bits *)
    unfold shr_fexp at 1.
    rewrite (Zdigits2_log2 q) by lia. rewrite (log2_53 q) by lia.
    rewrite fexp_normal by lia.
    replace (53 + 1 + e - 53 - e) with 1 by lia.
    cbn [shr SpecFloat.iter_pos].
    destruct q as [|p|p]; try lia.
    assert (∃ h (r s : bool),
              shr_1 (shr_record_of_loc (Zpos p) l)
              = Build_shr_record h r s
              ∧ (Zpos p = 2 * h + (if r then 1 else 0))) as (h & r & s & -> & Hh).
    { destruct p as [p|p|]; [| |lia].
      - exists (Zpos p), true. destruct l as [|[| |]]; eexists; split;
          try reflexivity; simpl; lia.
      - exists (Zpos p), false. destruct l as [|[| |]]; eexists; split;
          try reflexivity; simpl; lia. }
    cbn [shr_m].
    assert (round_nearest_even h (loc_of_shr_record (Build_shr_record h r s))
            = h
            ∨ (r = true
               ∧ round_nearest_even h
                   (loc_of_shr_record (Build_shr_record h r s)) = h + 1))
      as Hround.
    { destruct r, s; simpl; auto. destruct (Z.even h); auto. }
    destruct (round_finish
                (round_nearest_even h
                   (loc_of_shr_record (Build_shr_record h r s))) (e + 1))
      as (M & j & -> & HM).
    { destruct Hround as [-> | [_ ->]]; destruct r; simpl in Hh; lia. }
    { lia. }
    exists M, (j + 1). split; [f_equal; lia|].
    destruct HM as (Hval & Hj & Hbits).
    assert (j = 0 ∨ j = 1) as [-> | ->] by lia;
      destruct Hround as [Hr | [-> Hr]]; rewrite Hr in Hval;
      simpl in *; try destruct r; lia.
Qed.


(** The quotient of two mantissas of 53 bits, scaled by 2^53. *)
Lemma mantissa_quotient (ma mb : Z) :
  2 ^ 52 ≤ ma < 2 ^ 53 → 2 ^ 52 ≤ mb < 2 ^ 53 →
  2 ^ 52 ≤ ma * 2 ^ 53 / mb < 2 ^ 54.
Proof.
  intros Ha Hb. split.
  - apply Z.div_le_lower_bound; [lia|]. nia.
  - apply Z.div_lt_upper_bound; [lia|]. nia.
Qed.

(** Between the scaled quotient and the integer quotient. *)
Lemma scaled_quotient (a b T : Z) :
  0 ≤ a → 0 < b < T →
  a / b * T ≤ a * T / b ∧ a * T / b + 1 < (a / b + 1) * T.
Proof.
  intros Ha Hb.
  pose proof (Z.div_mod a b ltac:(lia)) as Hdiv.
  pose proof (Z.mod_pos_bound a b ltac:(lia)) as Hmod.
  set (K := a / b) in *. set (ρ := a mod b) in *.
  assert (a * T = K * T * b + ρ * T) as -> by lia.
  rewrite Z.div_add_l by lia.
  pose proof (Z.div_pos (ρ * T) b ltac:(nia) ltac:(lia)).
  split; [lia|].
  assert (ρ * T / b + 2 ≤ T); [|lia].
  pose proof (Z.mul_div_le (ρ * T) b ltac:(lia)) as Hw.
  set (w := ρ * T / b) in *.
  assert (b * w ≤ (b - 1) * T) by nia.
  assert (T ≤ b * (T - w)) by nia.
  assert (1 < T - w) by nia. lia.
Qed.

Lemma floor_fdiv (a b : Z) :
  0 ≤ a < 2 ^ 53 → 0 < b < 2 ^ 53 →
  Math_floor (fdiv (of_Z a) (of_Z b)) = of_Z (a / b).
Proof.
  intros Ha Hb.
  assert (∀ n, 0 < n < 2 ^ 53 → Z.log2 n ≤ 52) as Hlog52.
  { intros n Hn. apply Z.lt_succ_r, Z.log2_lt_pow2; lia. }
  pose proof (Hlog52 b Hb) as Hlb. pose proof (Z.log2_nonneg b) as Hlb0.
  destruct (of_Z_canon b Hb) as (mb & Hofb & Hmb).
  rewrite Hofb.
  destruct (Z.eq_dec a 0) as [->|Ha0]; [reflexivity|].
  pose proof (Hlog52 a ltac:(lia)) as Hla.
  pose proof (Z.log2_nonneg a) as Hla0.
  destruct (of_Z_canon a ltac:(lia)) as (ma & -> & Hma).
  pose proof (canon_log2 a ma ltac:(lia) Hla Hma) as Hmalog.
  pose proof (canon_log2 b mb ltac:(lia) Hlb Hmb) as Hmblog.
  assert (2 ^ 52 ≤ Zpos ma < 2 ^ 53) as Hmabits.
  { split; [apply Z.log2_le_pow2|apply Z.log2_lt_pow2]; lia. }
  assert (2 ^ 52 ≤ Zpos mb < 2 ^ 53) as Hmbbits.
  { split; [apply Z.log2_le_pow2|apply Z.log2_lt_pow2]; lia. }
  rewrite !Z.sub_0_r.
  unfold fdiv, SFdiv, SFdiv_core_binary.
  rewrite (Zdigits2_log2 (Zpos ma)), (Zdigits2_log2 (Zpos mb)) by lia.
  rewrite Hmalog, Hmblog.
  set (t := 53 + Z.log2 b - Z.log2 a).
  replace (52 + 1 + (Z.log2 a - 52) - (52 + 1 + (Z.log2 b - 52)))
    with (53 - t) by (unfold t; lia).
  rewrite fexp_normal by (unfold t; lia).
  rewrite Z.min_l by (unfold t; lia).
  replace (Z.log2 a - 52 - (Z.log2 b - 52) - (53 - t - 53)) with 53
    by (unfold t; lia).
  rewrite Z.shiftl_mul_pow2 by lia.
  rewrite div_eucl_div_mod. cbn [xorb].
  pose proof (mantissa_quotient _ _ Hmabits Hmbbits) as Hq.
  destruct (binary_round_aux_cut (Zpos ma * 2 ^ 53 / Zpos mb) (53 - t - 53)
              (new_location (Zpos mb) ((Zpos ma * 2 ^ 53) mod Zpos mb)) Hq)
    as (M & j & -> & HM & Hj & Hlow & Hup); [unfold t; lia|].
  assert (Zpos ma * 2 ^ 53 / Zpos mb = a * 2 ^ t / b) as Hscaled.
  { rewrite Hma, Hmb.
    replace (a * 2 ^ (52 - Z.log2 a) * 2 ^ 53)
      with (a * 2 ^ t * 2 ^ (52 - Z.log2 b)).
    - apply Z.div_mul_cancel_r; [lia|].
      pose proof (Z.pow_pos_nonneg 2 (52 - Z.log2 b)). lia.
    - rewrite <- !Z.mul_assoc, <- !Z.pow_add_r by (unfold t; lia).
      f_equal. f_equal. unfold t. lia. }
  rewrite Hscaled in Hlow, Hup.
  assert (b < 2 ^ t) as HbT.
  { apply Z.lt_le_trans with (2 ^ (Z.log2 b + 1)).
    - apply Z.log2_spec. lia.
    - apply Z.pow_le_mono_r; unfold t; lia. }
  destruct (scaled_quotient a b (2 ^ t) ltac:(lia) ltac:(lia))
    as [HKlow HKup].
  set (K := a / b) in *.
  assert (0 ≤ K < 2 ^ 53) as HK.
  { unfold K. split; [apply Z.div_pos; lia|].
    apply Z.div_lt_upper_bound; nia. }
  assert (j ≤ t) as Hjt.
  { destruct (Z_le_gt_dec j t) as [|Hgt]; [done|exfalso].
    assert (2 ^ (t + 1) ≤ 2 ^ j) by (apply Z.pow_le_mono_r; unfold t in *; lia).
    rewrite Z.pow_add_r in * by (unfold t; lia).
    nia. }
  assert (2 ^ t = 2 ^ (t - j) * 2 ^ j) as HT.
  { rewrite <- Z.pow_add_r by lia. f_equal. lia. }
  pose proof (Z.pow_pos_nonneg 2 (t - j) ltac:(lia) ltac:(lia)) as HD.
  pose proof (Z.pow_pos_nonneg 2 j ltac:(lia) ltac:(lia)) as HJ.
  assert (Zpos M / 2 ^ (t - j) = K) as Hfloor.
  { symmetry. apply (Z.div_unique_pos _ _ K (Zpos M - 2 ^ (t - j) * K)); nia. }
  unfold Math_floor.
  replace (53 - t - 53 + j) with (- (t - j)) by lia.
  destruct (Z.leb_spec 0 (- (t - j))) as [Hz|Hneg].
  - assert (t - j = 0) as Hzero by lia.
    rewrite Hzero, Z.pow_0_r, Z.div_1_r in Hfloor.
    replace (- (t - j)) with 0 by lia. rewrite <- Hfloor.
    destruct (of_Z_canon (Zpos M) ltac:(lia)) as (m' & -> & Hm').
    rewrite (log2_52 (Zpos M)) in * by lia.
    rewrite Z.sub_diag, Z.pow_0_r, Z.mul_1_r in Hm'.
    injection Hm' as ->. reflexivity.
  - cbn [cond_Zopp]. rewrite Z.opp_involutive, Hfloor. reflexivity.
Qed.

End DoubleSeconds.

Section TimeSums.
Implicit Types (p prev : LearningProgress) (h : string).

Lemma reduce_from (l : list ProgressRecord) (acc : Z) :
  (0 ≤ acc)%Z → Forall (λ r, 0 ≤ timeSpent r)%Z l →
  (acc + foldr (λ r s, timeSpent r + s) 0 l < 2 ^ 53)%Z →
  foldl (λ total r, fadd total (of_Z (timeSpent r))) (of_Z acc) l
  = of_Z (acc + foldr (λ r s, timeSpent r + s) 0 l)%Z.
Proof.
  revert acc. induction l as [|r l IH]; intros acc Hacc Hall Hsum; simpl.
  - by rewrite Z.add_0_r.
  - apply Forall_cons in Hall as [Hr Hall]. simpl in Hsum.
    assert (0 ≤ foldr (λ r s, timeSpent r + s) 0 l)%Z as Hrest.
    { clear -Hall. induction Hall; simpl; lia. }
    rewrite fadd_exact by lia.
    rewrite IH by (done || lia). f_equal. lia.
Qed.

Lemma values_nonneg p :
  (∀ h, 0 ≤ stored_time p h)%Z →
  Forall (λ r, 0 ≤ timeSpent r)%Z (Object_values p).
Proof.
  intros Hall. apply Forall_forall. intros r Hr.
  apply list_elem_of_fmap in Hr as ([h r'] & -> & Hr).
  apply elem_of_map_to_list in Hr. specialize (Hall h).
  unfold stored_time in Hall. by rewrite Hr in Hall.
Qed.

(** Below 2^53 the double-precision sum is the integer sum, in whatever
    order the records are listed. *)
Lemma reduce_timeSpent_total p (vs : list ProgressRecord) :
  (∀ h, 0 ≤ stored_time p h)%Z → (getTotalTimeSpent p < 2 ^ 53)%Z →
  vs ≡ₚ Object_values p →
  reduce_timeSpent vs = of_Z (getTotalTimeSpent p).
Proof.
  intros Hall Hsum Hperm. unfold reduce_timeSpent, getTotalTimeSpent in *.
  rewrite foldl_time_sum in *.
  rewrite <- (time_sum_perm _ _ Hperm) in *.
  apply reduce_from; [lia| |done].
  rewrite Hperm. by apply values_nonneg.
Qed.

End TimeSums.



(** X8. With the clock inside the range of [Date] and the session start not
    after it, every recorded time a non-negative integer and the new total
    below 2^53, the cleanup of a topic view whose captured progress shows
    the stored time of the topic adds exactly the elapsed whole seconds to
    the topic and to the total.  Each step is exact in double precision:
    the floor of the difference of the clock values over 1000 is the
    integer quotient, the addition to the captured time is the integer sum,
    and so is the sum of [getTotalTimeSpent], in whatever order
    [Object.values] lists the records. *)
Theorem X8_cleanup_adds_elapsed (selectedHook : string) (start now : Date)
    (seen prev : LearningProgress) (vs : list ProgressRecord) :
  selectedHook ≠ "" →
  (0 ≤ start ≤ now ∧ now ≤ 8640000000000000)%Z →
  stored_time seen selectedHook = stored_time prev selectedHook →
  (∀ h, 0 ≤ stored_time prev h)%Z →
  (getTotalTimeSpent prev + (now - start) / 1000 < 2 ^ 53)%Z →
  vs ≡ₚ Object_values
          (effect_cleanup selectedHook (Some start) seen now prev) →
  Math_floor (fdiv (fsub (of_Z now) (of_Z start)) (of_Z 1000))
  = of_Z ((now - start) / 1000)
  ∧ fadd (of_Z (stored_time seen selectedHook))
         (of_Z ((now - start) / 1000))
    = of_Z (stored_time prev selectedHook + (now - start) / 1000)
  ∧ stored_time (effect_cleanup selectedHook (Some start) seen now prev)
      selectedHook
    = (stored_time prev selectedHook + (now - start) / 1000)%Z
  ∧ getTotalTimeSpent
      (effect_cleanup selectedHook (Some start) seen now prev)
    = (getTotalTimeSpent prev + (now - start) / 1000)%Z
  ∧ reduce_timeSpent vs
    = of_Z (getTotalTimeSpent prev + (now - start) / 1000).
Proof.
  intros Hh Hclock Hseen Hprev Hsum Hperm.
  assert (0 ≤ (now - start) / 1000)%Z as Hel by (apply Z.div_pos; lia).
  assert (stored_time
            (effect_cleanup selectedHook (Some start) seen now prev)
            selectedHook
          = (stored_time prev selectedHook + (now - start) / 1000)%Z) as Hst.
  { rewrite effect_cleanup_stored_time by done.
    rewrite decide_True by done. by rewrite Hseen. }
  assert (getTotalTimeSpent
            (effect_cleanup selectedHook (Some start) seen now prev)
          = (getTotalTimeSpent prev + (now - start) / 1000)%Z) as Htot.
  { unfold effect_cleanup, truthy. rewrite bool_decide_eq_true_2 by done.
    rewrite getTotalTimeSpent_updateProgress. simpl.
    unfold stored_time in *. rewrite Hseen. lia. }
  assert (stored_time prev selectedHook ≤ getTotalTimeSpent prev)%Z as Hle.
  { rewrite (getTotalTimeSpent_delete prev selectedHook).
    assert (0 ≤ getTotalTimeSpent (delete selectedHook prev))%Z; [|lia].
    apply getTotalTimeSpent_nonneg. intros h. unfold stored_time.
    destruct (decide (h = selectedHook)) as [->|Hne].
    - by rewrite lookup_delete_eq.
    - rewrite lookup_delete_ne by done. apply Hprev. }
  split; [|split; [|split; [exact Hst|split; [exact Htot|]]]].
  - rewrite fsub_exact by lia. apply floor_fdiv; lia.
  - rewrite Hseen. pose proof (Hprev selectedHook).
    apply fadd_exact; lia.
  - rewrite <- Htot. apply reduce_timeSpent_total; [|lia|done].
    intros h. rewrite effect_cleanup_stored_time by done.
    destruct (decide (selectedHook = h)) as [<-|_]; [|apply Hprev].
    rewrite Hseen. pose proof (Hprev selectedHook). lia.
Qed.

(** X8 on a session of ninety seconds on a topic with 30 seconds stored. *)
Lemma X8_cleanup_adds_elapsed_witness :
  "useEffect" ≠ ""
  ∧ reduce_timeSpent
      (Object_values
         (effect_cleanup "useEffect" (Some 1000%Z)
            (updateProgress "useEffect" (write_time 30) 0%Z four_completed)
            91500%Z
            (updateProgress "useEffect" (write_time 30) 0%Z four_completed)))
    = of_Z 120.
Proof.
  assert ("useEffect" ≠ "") as Hh by discriminate.
  split; [exact Hh|].
  refine (eq_trans
            (proj2 (proj2 (proj2 (proj2
               (X8_cleanup_adds_elapsed "useEffect" 1000%Z 91500%Z
                  (updateProgress "useEffect" (write_time 30) 0%Z
                     four_completed)
                  (updateProgress "useEffect" (write_time 30) 0%Z
                     four_completed) _ Hh _ eq_refl _ _ _))))) _).
  - lia.
  - intros h. rewrite stored_time_updateProgress.
    destruct (decide ("useEffect" = h)) as [_|_]; [simpl; lia|].
    unfold four_completed, mark_all. simpl.
    unfold markAsCompleted. simpl.
    rewrite !stored_time_updateProgress.
    repeat (destruct (decide _) as [_|_]; [simpl|]); try by vm_compute.
  - by vm_compute.
  - reflexivity.
  - by vm_compute.
Defined.

(** X9. Along every sequence of actions that obeys the caller contract
    [getTotalTimeSpent] never decreases, and it is at least 0 whenever every
    stored time is. *)
Theorem X9_total_time_monotone (tr : list (Date * action))
    (p : LearningProgress) :
  sound_trace p tr →
  (getTotalTimeSpent p ≤ getTotalTimeSpent (run tr p))%Z
  ∧ ((∀ h, 0 ≤ stored_time p h)%Z →
     (0 ≤ getTotalTimeSpent p ≤ getTotalTimeSpent (run tr p))%Z).
Proof.
  intros Hsound. pose proof (run_total tr p Hsound) as Hmono.
  split; [exact Hmono|]. intros Hall.
  pose proof (getTotalTimeSpent_nonneg p Hall). lia.
Qed.

(** X9 on the two recorded sessions: the total is the 90 seconds of the
    second cleanup. *)
Lemma X9_total_time_monotone_witness :
  sound_trace ∅ two_sessions
  ∧ getTotalTimeSpent (run two_sessions ∅) = 90%Z
  ∧ (getTotalTimeSpent ∅ ≤ getTotalTimeSpent (run two_sessions ∅))%Z.
Proof.
  assert (sound_trace ∅ two_sessions) as Hsound.
  { simpl. repeat split; try lia. by vm_compute. }
  split; [exact Hsound|]. split; [by vm_compute|].
  exact (proj1 (X9_total_time_monotone two_sessions ∅ Hsound)).
Defined.

(** ** The number of completed topics *)

Section CompletedCount.
Implicit Types (p prev : LearningProgress) (h : string).

Lemma completed_count_insert_fresh p h r :
  p !! h = None →
  completed_count (<[h := r]> p)
  = completed_count p + (if completed r then 1 else 0).
Proof.
  intros Hh. unfold completed_count. rewrite map_filter_insert. simpl.
  destruct (completed r) eqn:Hr.
  - rewrite decide_True by done.
    rewrite map_size_insert_None; [lia|].
    apply map_lookup_filter_None. by left.
  - rewrite decide_False by done. rewrite delete_id by done. lia.
Qed.

Lemma completed_count_delete p h :
  completed_count p
  = completed_count (delete h p) + (if is_completed p h then 1 else 0).
Proof.
  unfold is_completed. destruct (p !! h) as [r|] eqn:Hh; simpl.
  - rewrite <- (insert_delete_id p h r Hh) at 1.
    by rewrite completed_count_insert_fresh by apply lookup_delete_eq.
  - rewrite delete_id by done. lia.
Qed.

Lemma completed_count_updateProgress hookId u now prev :
  completed_count (updateProgress hookId u now prev)
  + (if is_completed prev hookId then 1 else 0)
  = completed_count prev
    + (if default (is_completed prev hookId) (u_completed u)
       then 1 else 0).
Proof.
  unfold updateProgress. rewrite <- (insert_delete_eq prev hookId).
  rewrite completed_count_insert_fresh by apply lookup_delete_eq.
  rewrite (completed_count_delete prev hookId). simpl.
  unfold is_completed.
  destruct (prev !! hookId), (u_completed u); simpl; lia.
Qed.

Lemma completed_count_untouched hookId u now prev :
  u_completed u = None →
  completed_count (updateProgress hookId u now prev) = completed_count prev.
Proof.
  intros Hu. pose proof (completed_count_updateProgress hookId u now prev).
  rewrite Hu in *. simpl in *. lia.
Qed.

Lemma getCompletionPercentage_count p q :
  completed_count p = completed_count q →
  getCompletionPercentage p = getCompletionPercentage q.
Proof. intros H. by rewrite !getCompletionPercentage_percent, H. Qed.

End CompletedCount.

(** X10. Marking a selected topic as completed raises the number of
    completed topics by one when the topic was not completed (or had no
    record) and leaves it unchanged when it was; marking twice is the same
    as marking once.  [getCompletionPercentage] follows the count: it is the
    percentage of the new count, so it is unchanged when the topic was
    completed already; when it was not, and fewer than 16 topics were
    completed, it is [round (100 * (count + 1) / 16)], which is not the
    value before. *)
Theorem X10_mark_completed_counts_once (selectedHook : string)
    (now now' : Date) (prev : LearningProgress) :
  selectedHook ≠ "" →
  completed_count (markAsCompleted selectedHook now prev)
  = completed_count prev
    + (if is_completed prev selectedHook then 0 else 1)
  ∧ is_completed (markAsCompleted selectedHook now prev) selectedHook = true
  ∧ markAsCompleted selectedHook now'
      (markAsCompleted selectedHook now prev)
    = markAsCompleted selectedHook now prev
  ∧ getCompletionPercentage (markAsCompleted selectedHook now prev)
    = percent
        (Z.of_nat (completed_count prev
                   + (if is_completed prev selectedHook then 0 else 1)))
        16
  ∧ (is_completed prev selectedHook = true →
     getCompletionPercentage (markAsCompleted selectedHook now prev)
     = getCompletionPercentage prev)
  ∧ (is_completed prev selectedHook = false →
     completed_count prev < 16 →
     getCompletionPercentage (markAsCompleted selectedHook now prev)
     = of_Z (round_div (100 * (Z.of_nat (completed_count prev) + 1)) 16)
     ∧ getCompletionPercentage (markAsCompleted selectedHook now prev)
       ≠ getCompletionPercentage prev).
Proof.
  intros Hh.
  assert (completed_count (markAsCompleted selectedHook now prev)
          = completed_count prev
            + (if is_completed prev selectedHook then 0 else 1)) as Hcount.
  { unfold markAsCompleted, truthy. rewrite bool_decide_eq_true_2 by done.
    pose proof (completed_count_updateProgress selectedHook
                  {| u_completed := Some true; u_timeSpent := None;
                     u_lastVisited := None; u_notes := None;
                     u_bookmarked := None |} now prev) as Hlaw.
    simpl in Hlaw. destruct (is_completed prev selectedHook); lia. }
  split; [exact Hcount|].
  split; [|split; [|split; [|split]]].
  - unfold markAsCompleted, truthy. rewrite bool_decide_eq_true_2 by done.
    unfold is_completed. by rewrite updateProgress_lookup.
  - unfold markAsCompleted, truthy. rewrite bool_decide_eq_true_2 by done.
    unfold updateProgress at 1. rewrite updateProgress_lookup. simpl.
    apply insert_id. rewrite updateProgress_lookup. simpl.
    by destruct (prev !! selectedHook).
  - by rewrite getCompletionPercentage_percent, Hcount.
  - intros Hwas. apply getCompletionPercentage_count.
    rewrite Hcount, Hwas. lia.
  - intros Hwas Hlt.
    rewrite !getCompletionPercentage_percent, Hcount, Hwas.
    rewrite !percent_16_exact by (unfold totalHooks; lia).
    split; [f_equal; f_equal; lia|].
    intros Heq.
    assert (∀ c, (0 ≤ c ≤ 16)%Z →
              to_Z (of_Z (round_div (100 * c) 16))
              = Some (round_div (100 * c) 16)) as Hto.
    { intros c Hc.
      assert (c ∈ (Z.of_nat <$> seq 0 17)) as Hin.
      { apply list_elem_of_fmap. exists (Z.to_nat c).
        split; [lia|]. apply elem_of_seq. lia. }
      clear Hc. revert c Hin. apply Forall_forall.
      let l := eval vm_compute in (Z.of_nat <$> seq 0 17) in
      change (Z.of_nat <$> seq 0 17) with l.
      repeat (apply Forall_cons; split; [by vm_compute|]).
      constructor. }
    apply (f_equal to_Z) in Heq.
    rewrite !Hto in Heq by lia.
    injection Heq as Heq. unfold round_div in Heq.
    rewrite Nat2Z.inj_add in Heq. revert Heq.
    generalize (Z.of_nat (completed_count prev)) as c.
    intros c. change (Z.of_nat 1) with 1%Z.
    Z.to_euclidean_division_equations. lia.
Qed.

(** X10 on the map with four completed topics: a fifth gives 31 per cent,
    one of the four changes nothing. *)
Lemma X10_mark_completed_counts_once_witness :
  "useMemo" ≠ ""
  ∧ completed_count (markAsCompleted "useMemo" 0%Z four_completed) = 5
  ∧ getCompletionPercentage (markAsCompleted "useMemo" 0%Z four_completed)
    = of_Z 31
  ∧ getCompletionPercentage (markAsCompleted "useState" 0%Z four_completed)
    = getCompletionPercentage four_completed.
Proof.
  assert ("useMemo" ≠ "") as Hh by discriminate.
  assert ("useState" ≠ "") as Hh' by discriminate.
  split; [exact Hh|]. split; [|split].
  - exact (proj1 (X10_mark_completed_counts_once "useMemo" 0%Z 0%Z
                    four_completed Hh)).
  - refine (proj1 (proj2 (proj2 (proj2 (proj2 (proj2
              (X10_mark_completed_counts_once "useMemo" 0%Z 0%Z
                 four_completed Hh))))) _ _)); [reflexivity|].
    vm_compute. lia.
  - exact (proj1 (proj2 (proj2 (proj2 (proj2
              (X10_mark_completed_counts_once "useState" 0%Z 0%Z
                 four_completed Hh')))))
             eq_refl).
Defined.

(** X11. Opening a topic, toggling its bookmark and saving notes change
    neither [getTotalTimeSpent] nor [getCompletionPercentage]; marking
    complete and finishing a quiz do not change [getTotalTimeSpent]; the
    cleanup does not change [getCompletionPercentage]. *)
Theorem X11_actions_keep_aggregates (now : Date) (p : LearningProgress)
    (h n : string) (seen : LearningProgress) (start : option Date)
    (score : number) :
  (getTotalTimeSpent (perform now (Open h) p) = getTotalTimeSpent p
   ∧ getCompletionPercentage (perform now (Open h) p)
     = getCompletionPercentage p)
  ∧ (getTotalTimeSpent (perform now (ToggleBookmark h) p)
     = getTotalTimeSpent p
     ∧ getCompletionPercentage (perform now (ToggleBookmark h) p)
       = getCompletionPercentage p)
  ∧ (getTotalTimeSpent (perform now (SaveNotes h n) p) = getTotalTimeSpent p
     ∧ getCompletionPercentage (perform now (SaveNotes h n) p)
       = getCompletionPercentage p)
  ∧ getTotalTimeSpent (perform now (MarkAsCompleted h) p)
    = getTotalTimeSpent p
  ∧ getTotalTimeSpent (perform now (QuizComplete h score) p)
    = getTotalTimeSpent p
  ∧ getCompletionPercentage (perform now (Cleanup h start seen) p)
    = getCompletionPercentage p.
Proof.
  simpl.
  unfold effect_open, effect_cleanup, toggleBookmark, markAsCompleted,
    handleQuizComplete, saveNotes.
  destruct (truthy h), start; simpl;
    repeat split;
    try reflexivity;
    try (by rewrite getTotalTimeSpent_updateProgress; simpl; lia);
    try (apply getCompletionPercentage_count;
         by apply completed_count_untouched).
Qed.

(** ** Storage and state in step *)

Section InSync.
Implicit Types (st : Provider) (c : provider_call).

Lemma in_sync_mount storage : in_sync (mount storage).1.
Proof.
  unfold in_sync, mount, commit, effects. simpl.
  destruct (autoSave (load_settings storage)) eqn:Hauto; simpl;
    rewrite ?Hauto; simpl; split; try done.
Qed.

Lemma in_sync_step st c : in_sync st → in_sync (provider_step st c).
Proof.
  intros [Hset Hprog]. destruct c as [hookId u now|u|];
    unfold provider_step, in_sync.
  - rewrite call_updateProgress_storage.
    change (settings (call_updateProgress hookId u now st).1)
      with (settings st).
    change (progress (call_updateProgress hookId u now st).1)
      with (updateProgress hookId u now (progress st)).
    destruct (autoSave (settings st)) eqn:Hauto; simpl; split; try done.
  - split; [apply call_updateSettings_stored|].
    unfold call_updateSettings, commit, effects. cbn [fst snd].
    cbn [settings progress localStorage].
    intros Hon. rewrite Hon.
    destruct (autoSave (settings st)) eqn:Hauto; simpl.
    + by apply Hprog.
    + done.
  - rewrite call_resetProgress_storage.
    change (settings (call_resetProgress st).1) with (settings st).
    change (progress (call_resetProgress st).1)
      with (∅ : LearningProgress).
    simpl. split; [done|]. by intros ->.
Qed.

Lemma in_sync_run cs st : in_sync st → in_sync (provider_run cs st).
Proof.
  revert st. induction cs as [|c cs IH]; intros st Hst; simpl; [done|].
  by apply IH, in_sync_step.
Qed.

Lemma mount_in_sync st :
  in_sync st →
  settings (mount (localStorage st)).1 = settings st
  ∧ localStorage (mount (localStorage st)).1 = localStorage st
  ∧ (autoSave (settings st) = true → (mount (localStorage st)).1 = st).
Proof.
  intros [Hset Hprog]. destruct st as [p s [lp ls]]. simpl in *.
  subst ls. unfold mount, commit, effects, load_settings, load_progress.
  simpl. destruct (autoSave s) eqn:Hauto; simpl.
  - rewrite (Hprog eq_refl). simpl. repeat split; done.
  - repeat split; done.
Qed.

End InSync.

(** X12. Starting from an empty storage, over any number of earlier visits
    (each mounting the provider and making any sequence of
    [updateProgress], [updateSettings] and [resetProgress] calls) and after
    any sequence of calls in the current visit, the persisted settings are
    the settings in memory, and whenever [autoSave] is on the persisted
    progress is the progress in memory (also right after [autoSave] was
    switched back on). *)
Theorem X12_storage_in_sync (history : list (list provider_call))
    (cs : list provider_call) :
  in_sync (session cs (after_sessions history)).
Proof. apply in_sync_run, in_sync_mount. Qed.

(** X13. On a storage that only the provider has written (any number of
    visits, from an empty storage), mounting the provider again on what a
    visit leaves behind restores the settings and leaves the storage as it
    is; with [autoSave] on it also restores the progress: the same topics
    have a record, each with its [completed], [timeSpent], [notes] and
    [bookmarked] as they were. *)
Theorem X13_remount_restores (history : list (list provider_call))
    (cs : list provider_call) :
  let st := session cs (after_sessions history) in
  let st' := session [] (localStorage st) in
  settings st' = settings st
  ∧ localStorage st' = localStorage st
  ∧ (autoSave (settings st) = true →
     ∀ hookId,
       record_data <$> progress st' !! hookId
       = record_data <$> progress st !! hookId).
Proof.
  intros st st'.
  destruct (mount_in_sync st) as (Hset & Hsto & Hall).
  { apply in_sync_run, in_sync_mount. }
  split; [exact Hset|]. split; [exact Hsto|].
  intros Hon hookId.
  change st' with (mount (localStorage st)).1. by rewrite (Hall Hon).
Qed.

(** X13 after recording time on a fresh installation. *)
Lemma X13_remount_restores_witness :
  autoSave
    (settings
       (session [UpdateProgress "useState" (write_time 30) 1000%Z]
          (after_sessions []))) = true
  ∧ record_data
      <$> progress
            (session []
               (localStorage
                  (session [UpdateProgress "useState" (write_time 30) 1000%Z]
                     (after_sessions [])))) !! "useState"
    = Some (false, 30%Z, "", false).
Proof.
  assert (autoSave
            (settings
               (session [UpdateProgress "useState" (write_time 30) 1000%Z]
                  (after_sessions []))) = true) as Hon by reflexivity.
  split; [exact Hon|].
  rewrite (proj2 (proj2 (X13_remount_restores []
                           [UpdateProgress "useState" (write_time 30) 1000%Z]))
             Hon "useState").
  by vm_compute.
Defined.

(** ** Settings *)

(** X14. Two [updateSettings] calls in a row amount to one call with the
    later value of every field that either carries; in particular a call
    repeated changes nothing more. *)
Theorem X14_settings_updates_compose (u1 u2 : SettingsUpdate)
    (s : LearningSettings) :
  updateSettings u2 (updateSettings u1 s)
  = updateSettings
      {| s_theme :=
           match s_theme u2 with Some v => Some v | None => s_theme u1 end;
         s_difficulty :=
           match s_difficulty u2 with
           | Some v => Some v | None => s_difficulty u1 end;
         s_showHints :=
           match s_showHints u2 with
           | Some v => Some v | None => s_showHints u1 end;
         s_autoSave :=
           match s_autoSave u2 with
           | Some v => Some v | None => s_autoSave u1 end;
         s_soundEnabled :=
           match s_soundEnabled u2 with
           | Some v => Some v | None => s_soundEnabled u1 end |} s
  ∧ updateSettings u1 (updateSettings u1 s) = updateSettings u1 s.
Proof.
  destruct u1 as [[?|] [?|] [?|] [?|] [?|]], u2 as [[?|] [?|] [?|] [?|] [?|]];
    by split.
Qed.

(** X15. Each switch of the settings dialog flips its own flag and leaves
    the four other settings and the progress as they are; pressed twice it
    gives the settings back; and each press persists the settings. *)
Theorem X15_settings_switches (st : Provider) :
  (settings (toggle_showHints st).1
   = {| theme := theme (settings st); difficulty := difficulty (settings st);
        showHints := negb (showHints (settings st));
        autoSave := autoSave (settings st);
        soundEnabled := soundEnabled (settings st) |}
   ∧ settings (toggle_showHints (toggle_showHints st).1).1 = settings st)
  ∧ (settings (toggle_autoSave st).1
     = {| theme := theme (settings st);
          difficulty := difficulty (settings st);
          showHints := showHints (settings st);
          autoSave := negb (autoSave (settings st));
          soundEnabled := soundEnabled (settings st) |}
     ∧ settings (toggle_autoSave (toggle_autoSave st).1).1 = settings st)
  ∧ (settings (toggle_soundEnabled st).1
     = {| theme := theme (settings st);
          difficulty := difficulty (settings st);
          showHints := showHints (settings st);
          autoSave := autoSave (settings st);
          soundEnabled := negb (soundEnabled (settings st)) |}
     ∧ settings (toggle_soundEnabled (toggle_soundEnabled st).1).1
       = settings st)
  ∧ progress (toggle_showHints st).1 = progress st
  ∧ progress (toggle_autoSave st).1 = progress st
  ∧ progress (toggle_soundEnabled st).1 = progress st
  ∧ learning_settings (localStorage (toggle_showHints st).1)
    = Some (settings (toggle_showHints st).1)
  ∧ learning_settings (localStorage (toggle_autoSave st).1)
    = Some (settings (toggle_autoSave st).1)
  ∧ learning_settings (localStorage (toggle_soundEnabled st).1)
    = Some (settings (toggle_soundEnabled st).1).
Proof.
  unfold toggle_showHints, toggle_autoSave, toggle_soundEnabled.
  rewrite !call_updateSettings_stored.
  destruct st as [p [t d h a e] sto]. simpl.
  repeat split; by rewrite ?negb_involutive.
Qed.

(** ** Bookmarks *)

(** X16. Toggling the bookmark of a selected topic that has a record flips
    [bookmarked] and nothing else, and toggling again gives the progress
    map back; on a topic without a record the first toggle creates the
    default record with [bookmarked = true]. *)
Theorem X16_bookmark_toggle (selectedHook : string) (now now' : Date)
    (p : LearningProgress) :
  selectedHook ≠ "" →
  (∀ r, p !! selectedHook = Some r →
     toggleBookmark selectedHook p now p !! selectedHook
     = Some {| completed := completed r; timeSpent := timeSpent r;
               lastVisited := lastVisited r; notes := notes r;
               bookmarked := negb (bookmarked r) |}
     ∧ toggleBookmark selectedHook (toggleBookmark selectedHook p now p) now'
         (toggleBookmark selectedHook p now p) = p)
  ∧ (p !! selectedHook = None →
     toggleBookmark selectedHook p now p !! selectedHook
     = Some {| completed := false; timeSpent := 0; lastVisited := now;
               notes := ""; bookmarked := true |}).
Proof.
  intros Hh. unfold toggleBookmark, truthy.
  rewrite bool_decide_eq_true_2 by done. split.
  - intros r Hr. rewrite !updateProgress_lookup, Hr. simpl. split; [done|].
    unfold updateProgress. rewrite lookup_insert_eq. simpl.
    rewrite insert_insert_eq. apply insert_id.
    rewrite Hr, negb_involutive. by destruct r.
  - intros Hnone. by rewrite updateProgress_lookup, Hnone.
Qed.

(** X16 on a completed topic: bookmarked, then not. *)
Lemma X16_bookmark_toggle_witness :
  "useState" ≠ ""
  ∧ bookmarked
      <$> toggleBookmark "useState" four_completed 5%Z four_completed
          !! "useState" = Some true
  ∧ toggleBookmark "useState"
      (toggleBookmark "useState" four_completed 5%Z four_completed) 9%Z
      (toggleBookmark "useState" four_completed 5%Z four_completed)
    = four_completed.
Proof.
  assert ("useState" ≠ "") as Hh by discriminate.
  assert (four_completed !! "useState"
          = Some {| completed := true; timeSpent := 0%Z;
                    lastVisited := 0%Z; notes := "";
                    bookmarked := false |}) as Hr
    by (vm_compute; reflexivity).
  destruct (proj1 (X16_bookmark_toggle "useState" 5%Z 9%Z four_completed Hh)
              _ Hr) as [H1 H2].
  split; [exact Hh|]. split; [by rewrite H1|exact H2].
Defined.

(** ** Moving between topics *)

Section Moving.
Implicit Types (hooks : list Hook) (h : Hook).

Lemma list_find_id hooks i h :
  NoDup (hook_id <$> hooks) → hooks !! i = Some h →
  list_find (λ h', hook_id h' = hook_id h) hooks = Some (i, h).
Proof.
  intros Hnd Hi. apply list_find_Some. repeat split; [done..|].
  intros j y Hj Hlt Heq.
  assert (i = j); [|lia].
  eapply NoDup_lookup; [exact Hnd| |].
  - by rewrite list_lookup_fmap, Hi.
  - by rewrite list_lookup_fmap, Hj, <- Heq.
Qed.

Lemma currentIndex_lookup hooks i h :
  NoDup (hook_id <$> hooks) → hooks !! i = Some h →
  currentIndex hooks (hook_id h) = Z.of_nat i.
Proof.
  intros Hnd Hi. unfold currentIndex. by rewrite (list_find_id hooks i h).
Qed.

Lemma prevHook_lookup hooks i h :
  NoDup (hook_id <$> hooks) → hooks !! i = Some h →
  prevHook hooks (hook_id h)
  = match i with 0 => None | S j => hooks !! j end.
Proof.
  intros Hnd Hi. unfold prevHook.
  rewrite (currentIndex_lookup hooks i h) by done.
  destruct i as [|j].
  - reflexivity.
  - destruct (Z.ltb_spec 0 (Z.of_nat (S j))); [|lia].
    unfold hook_at. destruct (Z.ltb_spec (Z.of_nat (S j) - 1) 0); [lia|].
    f_equal. lia.
Qed.

Lemma nextHook_lookup hooks i h :
  NoDup (hook_id <$> hooks) → hooks !! i = Some h →
  nextHook hooks (hook_id h) = hooks !! S i.
Proof.
  intros Hnd Hi. unfold nextHook.
  rewrite (currentIndex_lookup hooks i h) by done.
  destruct (Z.ltb_spec (Z.of_nat i) (Z.of_nat (length hooks) - 1)).
  - unfold hook_at. destruct (Z.ltb_spec (Z.of_nat i + 1) 0); [lia|].
    f_equal. lia.
  - symmetry. apply lookup_ge_None_2. lia.
Qed.

End Moving.

(** X17. In a catalog without repeated ids, the selected topic at position
    [i] has the topic at [i - 1] as its previous one (none at the first
    position) and the topic at [i + 1] as its next one (none at the last);
    so Next followed by Previous, and Previous followed by Next, come back
    to the selected topic whenever the first button was enabled. *)
Theorem X17_previous_next_round_trip (hooks : list Hook) (i : nat)
    (h : Hook) :
  NoDup (hook_id <$> hooks) → hooks !! i = Some h →
  prevHook hooks (hook_id h)
  = match i with 0 => None | S j => hooks !! j end
  ∧ nextHook hooks (hook_id h) = hooks !! S i
  ∧ (is_Some (nextHook hooks (hook_id h)) →
     pressPrevious hooks (pressNext hooks (hook_id h)) = hook_id h)
  ∧ (is_Some (prevHook hooks (hook_id h)) →
     pressNext hooks (pressPrevious hooks (hook_id h)) = hook_id h).
Proof.
  intros Hnd Hi.
  pose proof (prevHook_lookup hooks i h Hnd Hi) as Hprev.
  pose proof (nextHook_lookup hooks i h Hnd Hi) as Hnext.
  split; [exact Hprev|]. split; [exact Hnext|]. split.
  - intros [h' Hh']. unfold pressNext. rewrite Hh'.
    rewrite Hnext in Hh'. unfold pressPrevious.
    by rewrite (prevHook_lookup hooks (S i) h' Hnd Hh'), Hi.
  - intros [h' Hh']. unfold pressPrevious. rewrite Hh'.
    rewrite Hprev in Hh'. destruct i as [|j]; [done|].
    unfold pressNext.
    by rewrite (nextHook_lookup hooks j h' Hnd Hh'), Hi.
Qed.

(** X17 in the catalog of the repository, at [useEffect]. *)
Lemma X17_previous_next_round_trip_witness :
  NoDup (hook_id <$> hooks)
  ∧ hook_id <$> prevHook hooks "useEffect" = Some "useState"
  ∧ hook_id <$> nextHook hooks "useEffect" = Some "useContext"
  ∧ pressPrevious hooks (pressNext hooks "useEffect") = "useEffect".
Proof.
  assert (NoDup (hook_id <$> hooks)) as Hnd
    by (apply (bool_decide_unpack _); vm_compute; exact I).
  assert (hooks !! 1 = Some {| hook_id := "useEffect";
                               hook_name := "useEffect";
                               hook_category := "basic";
                               hook_description :=
                                 "Perform side effects in functional components";
                               hook_icon := "zap";
                               hook_difficulty := "beginner" |}) as Hi
    by reflexivity.
  destruct (X17_previous_next_round_trip hooks 1 _ Hnd Hi)
    as (Hprev & Hnext & Hround & _).
  split; [exact Hnd|]. simpl in Hprev, Hnext, Hround.
  split; [by rewrite Hprev|]. split; [by rewrite Hnext|].
  apply Hround. rewrite Hnext. by eexists.
Defined.

(** X18. For a selected id that is not in the catalog (as the empty
    selection), [findIndex] is -1: there is no previous topic, and the next
    topic is the first of the catalog. *)
Theorem X18_unknown_topic_goes_first (hooks : list Hook)
    (selectedHook : string) :
  selectedHook ∉ (hook_id <$> hooks) →
  currentHook hooks selectedHook = None
  ∧ currentIndex hooks selectedHook = (-1)%Z
  ∧ prevHook hooks selectedHook = None
  ∧ nextHook hooks selectedHook = hooks !! 0
  ∧ pressPrevious hooks selectedHook = selectedHook.
Proof.
  intros Hnot.
  assert (list_find (λ h, hook_id h = selectedHook) hooks = None) as Hfind.
  { apply list_find_None, Forall_forall. intros h Hh Heq. apply Hnot.
    rewrite <- Heq. by apply list_elem_of_fmap_2. }
  unfold pressPrevious, prevHook, nextHook, currentIndex, currentHook.
  rewrite Hfind. simpl. repeat split.
  destruct hooks as [|h hooks']; simpl; [done|].
  destruct (Z.ltb_spec (-1) (Z.of_nat (S (length hooks')) - 1)); [done|lia].
Qed.

(** X18 in the catalog of the repository, with no topic selected. *)
Lemma X18_unknown_topic_goes_first_witness :
  ("" ∉ (hook_id <$> hooks))
  ∧ hook_id <$> nextHook hooks "" = Some "useState".
Proof.
  assert ("" ∉ (hook_id <$> hooks)) as Hnot
    by (apply (bool_decide_unpack _); vm_compute; exact I).
  split; [exact Hnot|].
  by rewrite (proj1 (proj2 (proj2 (proj2
                (X18_unknown_topic_goes_first hooks "" Hnot))))).
Defined.

(** ** Dashboard: the recommended topic *)

Section Recommended.
Implicit Types (progress : LearningProgress).

Lemma find_app_Z {A} (f : A → bool) (l k : list A) :
  find f (l ++ k) = match find f l with Some x => Some x | None => find f k end.
Proof. induction l as [|x l IH]; simpl; [done|]. by destruct (f x). Qed.

(** The three loops are one search through the seven ids, and the catalog
    has each of them; its first entry is [useState]. *)
Lemma getNextRecommended_search progress :
  getNextRecommended hooks progress
  = currentHook hooks
      (default "useState"
         (first_uncompleted progress
            (basicHooks ++ intermediateHooks ++ advancedHooks))).
Proof.
  unfold getNextRecommended, first_uncompleted. rewrite !find_app_Z.
  destruct (find _ basicHooks); [done|].
  destruct (find _ intermediateHooks); [done|].
  by destruct (find _ advancedHooks).
Qed.

Lemma recommended_in_catalog :
  Forall (λ hookId, hook_id <$> currentHook hooks hookId = Some hookId)
    (basicHooks ++ intermediateHooks ++ advancedHooks).
Proof. repeat constructor. Qed.

End Recommended.

Lemma find_first {A} (f : A → bool) (l1 l2 : list A) (x : A) :
  Forall (λ y, f y = false) l1 → f x = true →
  find f (l1 ++ x :: l2) = Some x.
Proof.
  intros Hall Hx. induction Hall as [|y l1 Hy _ IH]; simpl.
  - by rewrite Hx.
  - by rewrite Hy.
Qed.

(** X19. [getNextRecommended] always returns a topic of the catalog whose id
    is one of the seven ids of its three lists, so the nine other topics
    are never recommended.  It is the first of the seven, in the order
    useState, useEffect, useRef, useContext, useReducer, useCallback,
    useMemo, that is not completed: whenever the ids before one of them are
    all completed and that one is not, that one is returned.  With all
    seven completed, [useState] is returned again. *)
Theorem X19_recommended_topic (progress : LearningProgress) :
  (∃ h : Hook,
     getNextRecommended hooks progress = Some h
     ∧ h ∈ hooks
     ∧ hook_id h ∈ recommendation_order)
  ∧ (∀ (before after : list string) (hookId : string),
       recommendation_order = before ++ hookId :: after →
       Forall (λ b, is_completed progress b = true) before →
       is_completed progress hookId = false →
       hook_id <$> getNextRecommended hooks progress = Some hookId)
  ∧ (Forall (λ b, is_completed progress b = true) recommendation_order →
     hook_id <$> getNextRecommended hooks progress = Some "useState").
Proof.
  pose proof recommended_in_catalog as Hcat.
  rewrite Forall_forall in Hcat.
  assert (∀ before after hookId,
            recommendation_order = before ++ hookId :: after →
            Forall (λ b, is_completed progress b = true) before →
            is_completed progress hookId = false →
            hook_id <$> getNextRecommended hooks progress = Some hookId)
    as Hfirst.
  { intros before after hookId Hsplit Hbefore Hnot.
    rewrite getNextRecommended_search.
    change (basicHooks ++ intermediateHooks ++ advancedHooks)
      with recommendation_order.
    rewrite Hsplit. unfold first_uncompleted.
    rewrite (find_first _ before after hookId).
    - simpl. apply Hcat.
      change (basicHooks ++ intermediateHooks ++ advancedHooks)
        with recommendation_order.
      rewrite Hsplit. apply elem_of_app. right. by left.
    - eapply Forall_impl; [exact Hbefore|]. by intros b ->.
    - by rewrite Hnot. }
  assert (Forall (λ b, is_completed progress b = true) recommendation_order →
          hook_id <$> getNextRecommended hooks progress = Some "useState")
    as Hall.
  { intros Hdone. rewrite getNextRecommended_search.
    change (basicHooks ++ intermediateHooks ++ advancedHooks)
      with recommendation_order.
    assert (first_uncompleted progress recommendation_order = None) as ->.
    { unfold first_uncompleted.
      destruct (find _ recommendation_order) as [x|] eqn:Hfind; [|done].
      apply find_some in Hfind as [Hin Hx].
      rewrite Forall_forall in Hdone.
      rewrite (Hdone x) in Hx by by apply list_elem_of_In. done. }
    reflexivity. }
  split; [|split; [exact Hfirst|exact Hall]].
  rewrite getNextRecommended_search.
  set (hookId := default "useState" _).
  assert (hookId ∈ recommendation_order) as Hin.
  { unfold hookId.
    destruct (first_uncompleted _ _) as [x|] eqn:Hfind; simpl.
    - apply find_some in Hfind as [Hin _]. by apply list_elem_of_In.
    - by left. }
  specialize (Hcat hookId Hin).
  destruct (currentHook hooks hookId) as [h|] eqn:Hcur; [|done].
  injection Hcat as Hid. exists h. split; [done|]. split; [|by rewrite Hid].
  unfold currentHook in Hcur.
  destruct (list_find _ hooks) as [[i h']|] eqn:Hfind; [|done].
  injection Hcur as <-.
  apply list_find_Some in Hfind as (Hi & _).
  by eapply list_elem_of_lookup_2.
Qed.

(** X19 with [useState] and [useEffect] completed: [useRef]; and with the
    seven completed: [useState]. *)
Lemma X19_recommended_topic_witness :
  hook_id <$> getNextRecommended hooks four_completed = Some "useRef"
  ∧ hook_id
      <$> getNextRecommended hooks (mark_all recommendation_order)
    = Some "useState".
Proof.
  split.
  - apply (proj1 (proj2 (X19_recommended_topic four_completed))
             ["useState"; "useEffect"]
             ["useContext"; "useReducer"; "useCallback"; "useMemo"]
             "useRef").
    + reflexivity.
    + repeat constructor.
    + reflexivity.
  - apply (proj2 (proj2 (X19_recommended_topic
                           (mark_all recommendation_order)))).
    repeat constructor.
Defined.

(** ** Dashboard: the progress of a learning path *)

Section Paths.

Lemma filter_all_length {A} (P : A → Prop) `{!∀ x, Decision (P x)}
    (l : list A) :
  length (filter P l) = length l ↔ Forall P l.
Proof.
  induction l as [|x l IH]; simpl; [by split|].
  rewrite filter_cons. pose proof (length_filter P l).
  destruct (decide (P x)); simpl.
  - rewrite Forall_cons. split.
    + intros Hlen. split; [done|]. apply IH. lia.
    + intros [_ Hall]. f_equal. by apply IH.
  - split; [lia|]. by intros [? _]%Forall_cons.
Qed.

Lemma filter_none_length {A} (P : A → Prop) `{!∀ x, Decision (P x)}
    (l : list A) :
  length (filter P l) = 0 ↔ Forall (λ x, ¬ P x) l.
Proof.
  induction l as [|x l IH]; simpl; [by split|].
  rewrite filter_cons. destruct (decide (P x)); simpl.
  - split; [lia|]. by intros [? _]%Forall_cons.
  - rewrite Forall_cons. split.
    + intros Hlen. split; [done|]. by apply IH.
    + intros [_ Hall]. by apply IH.
Qed.

End Paths.

Lemma filter_completed_in (progress : LearningProgress)
    (pathHooks : list string) :
  length (filter (λ hookId, is_completed progress hookId = true) pathHooks)
  = completed_in progress pathHooks.
Proof.
  induction pathHooks as [|h l IH]; [done|].
  rewrite filter_cons. simpl.
  destruct (is_completed progress h) eqn:Hh.
  - rewrite decide_True by done. simpl. by rewrite IH.
  - rewrite decide_False by done. by rewrite IH.
Qed.

(** X20. For a learning path of 1 to 39 topics, [getPathProgress] is the
    integer [round (100 * c / length)], with [c] the number of topics of
    the path that are completed; it lies between 0 and 100, is 100 exactly
    when every topic of the path is completed and 0 exactly when none
    is. *)
Theorem X20_path_progress (progress : LearningProgress)
    (pathHooks : list string) :
  1 ≤ length pathHooks ≤ 39 →
  getPathProgress progress pathHooks
  = of_Z (round_div (100 * Z.of_nat (completed_in progress pathHooks))
            (Z.of_nat (length pathHooks)))
  ∧ (0 ≤ round_div (100 * Z.of_nat (completed_in progress pathHooks))
           (Z.of_nat (length pathHooks)) ≤ 100)%Z
  ∧ (getPathProgress progress pathHooks = of_Z 100
     ↔ Forall (λ hookId, is_completed progress hookId = true) pathHooks)
  ∧ (getPathProgress progress pathHooks = of_Z 0
     ↔ Forall (λ hookId, is_completed progress hookId ≠ true) pathHooks).
Proof.
  intros Hlen. unfold getPathProgress.
  rewrite <- filter_completed_in.
  set (c := length (filter (λ hookId, is_completed progress hookId = true)
                      pathHooks)).
  assert (c ≤ length pathHooks) as Hc by apply length_filter.
  change (Math_round _) with (percent (Z.of_nat c)
                                (Z.of_nat (length pathHooks))).
  destruct (score_marks_sound _ _ Hlen Hc) as (H100 & H0 & _).
  split; [|split; [|split]].
  - apply (percent_table_sound 1 39); [apply quiz_table|lia|lia].
  - apply round_div_bounds; lia.
  - rewrite H100. apply filter_all_length.
  - rewrite H0. apply filter_none_length.
Qed.

(** X20 on the first learning path with two of its three topics
    completed. *)
Lemma X20_path_progress_witness :
  1 ≤ length ["useState"; "useEffect"; "useRef"] ≤ 39
  ∧ getPathProgress four_completed ["useState"; "useEffect"; "useRef"]
    = of_Z 67.
Proof.
  assert (1 ≤ length ["useState"; "useEffect"; "useRef"] ≤ 39) as Hlen
    by (simpl; lia).
  split; [exact Hlen|].
  exact (proj1 (X20_path_progress four_completed
                  ["useState"; "useEffect"; "useRef"] Hlen)).
Defined.

(** ** Dashboard: printing a duration *)

Section Durations.
Local Open Scope Z_scope.

Lemma minutes_of_seconds s : 0 ≤ s → Z.rem s 3600 / 60 = (s / 60) mod 60.
Proof.
  intros Hs. rewrite Z.rem_mod_nonneg by lia.
  Z.to_euclidean_division_equations. lia.
Qed.

Lemma hours_of_seconds s : s / 3600 = s / 60 / 60.
Proof. rewrite Z.div_div by lia. reflexivity. Qed.

End Durations.

(** X21. For a whole number of seconds from 0 to below 2^53 the two floored
    divisions of [formatTime], done in double precision, give the integer
    quotients, and [formatTime] prints the whole minutes only: two
    durations within the same minute print alike, below an hour the text is
    the minutes followed by [m] (so [0m] below one minute), and from an
    hour on it is the hours, [h], and the minutes beyond the hours, which
    are below 60. *)
Theorem X21_formatTime_whole_minutes (seconds : Z) :
  (0 ≤ seconds < 2 ^ 53)%Z →
  (Math_floor (fdiv (of_Z seconds) (of_Z 3600)) = of_Z (seconds / 3600)
   ∧ Math_floor (fdiv (of_Z (Z.rem seconds 3600)) (of_Z 60))
     = of_Z (Z.rem seconds 3600 / 60))
  ∧ formatTime seconds
    = (if (seconds <? 3600)%Z then pretty (seconds / 60)%Z +:+ "m"
       else pretty (seconds / 3600)%Z +:+ "h "
            +:+ pretty ((seconds / 60) mod 60)%Z +:+ "m")
  ∧ (0 ≤ (seconds / 60) mod 60 < 60)%Z
  ∧ (∀ t, (0 ≤ t < 2 ^ 53)%Z → (t / 60 = seconds / 60)%Z →
          formatTime t = formatTime seconds).
Proof.
  intros [Hs Hlt].
  assert (∀ t, (0 ≤ t)%Z →
            formatTime t
            = if (0 <? t / 60 / 60)%Z
              then pretty (t / 60 / 60)%Z +:+ "h "
                   +:+ pretty ((t / 60) mod 60)%Z +:+ "m"
              else pretty ((t / 60) mod 60)%Z +:+ "m") as Hshape.
  { intros t Ht. unfold formatTime.
    by rewrite minutes_of_seconds, hours_of_seconds by done. }
  split; [|split; [|split]].
  - split; apply floor_fdiv; try lia.
    rewrite Z.rem_mod_nonneg by lia.
    pose proof (Z.mod_pos_bound seconds 3600). lia.
  - rewrite Hshape by done. rewrite <- hours_of_seconds.
    destruct (Z.ltb_spec seconds 3600).
    + destruct (Z.ltb_spec 0 (seconds / 3600)).
      * assert (seconds / 3600 = 0)%Z by (apply Z.div_small; lia). lia.
      * f_equal. f_equal. apply Z.mod_small.
        split; [apply Z.div_pos; lia|].
        apply Z.div_lt_upper_bound; lia.
    + destruct (Z.ltb_spec 0 (seconds / 3600)); [done|].
      assert (1 ≤ seconds / 3600)%Z by (apply Z.div_le_lower_bound; lia).
      lia.
  - apply Z.mod_pos_bound. lia.
  - intros t [Ht _] Heq. rewrite !Hshape by done. by rewrite Heq.
Qed.

(** X21 at 59 seconds and at 3725 seconds. *)
Lemma X21_formatTime_whole_minutes_witness :
  (0 ≤ 3725 < 2 ^ 53)%Z ∧ formatTime 59 = "0m" ∧ formatTime 3725 = "1h 2m"
  ∧ formatTime 3720 = formatTime 3725.
Proof.
  assert (0 ≤ 3725 < 2 ^ 53)%Z as H0 by lia.
  split; [exact H0|]. split; [reflexivity|]. split; [reflexivity|].
  apply (proj2 (proj2 (proj2 (X21_formatTime_whole_minutes 3725 H0))));
    [lia|].
  reflexivity.
Defined.

(** ** NotesPanel *)

(** X22. Saving the notes of a topic stores the text of the editor in the
    record of the topic, keeping its other fields, and the effect that runs
    on the new progress shows the same text in the editor, marked as
    saved. *)
Theorem X22_notes_save_then_load (hookId : string) (now : Date)
    (ed : Editor) (prev : LearningProgress) :
  hookId ≠ "" →
  (save hookId now ed prev).1 !! hookId
  = Some (spread_update
            (spread_record (default_record now) (prev !! hookId))
            {| u_completed := None; u_timeSpent := None;
               u_lastVisited := None; u_notes := Some (editor_notes ed);
               u_bookmarked := None |})
  ∧ load_effect hookId (save hookId now ed prev).1 (save hookId now ed prev).2
    = {| editor_notes := editor_notes ed; hasUnsavedChanges := false |}.
Proof.
  intros Hh. unfold save, saveNotes, load_effect, truthy. simpl.
  rewrite bool_decide_eq_true_2 by done.
  by rewrite updateProgress_lookup.
Qed.

(** X22 on a completed topic: the note is stored and shown, the topic stays
    completed. *)
Lemma X22_notes_save_then_load_witness :
  "useState" ≠ ""
  ∧ (save "useState" 7%Z (handleNotesChange "state is local" editor_initial)
       four_completed).1 !! "useState"
    = Some {| completed := true; timeSpent := 0%Z; lastVisited := 0%Z;
              notes := "state is local"; bookmarked := false |}.
Proof.
  assert ("useState" ≠ "") as Hh by discriminate.
  split; [exact Hh|].
  rewrite (proj1 (X22_notes_save_then_load "useState" 7%Z
                    (handleNotesChange "state is local" editor_initial)
                    four_completed Hh)).
  reflexivity.
Defined.



(** ** Dashboard: the streak *)

Section FirstOccurrences.

Lemma filter_iff_elem {A} (P1 P2 : A → Prop)
    `{!∀ x, Decision (P1 x), !∀ x, Decision (P2 x)} (l : list A) :
  (∀ x, x ∈ l → P1 x ↔ P2 x) → filter P1 l = filter P2 l.
Proof.
  induction l as [|x l IH]; intros Hall; [done|].
  rewrite !filter_cons.
  rewrite IH by (intros y Hy; apply Hall; by right).
  pose proof (Hall x ltac:(by left)) as Hx.
  destruct (decide (P1 x)) as [H1|H1], (decide (P2 x)) as [H2|H2];
    try done; tauto.
Qed.

Lemma indexOf_app_l (l k : list string) (x : string) :
  x ∈ l → indexOf (l ++ k) x = indexOf l x.
Proof.
  intros Hx. unfold indexOf.
  destruct (list_find_elem_of (λ y, y = x) l x Hx eq_refl) as [[i y] Hf].
  by rewrite (list_find_app_l _ _ _ _ _ Hf), Hf.
Qed.

Lemma indexOf_lt (l : list string) (x : string) :
  (indexOf l x < Z.of_nat (length l))%Z.
Proof.
  unfold indexOf. destruct (list_find _ l) as [[i y]|] eqn:Hf; [|lia].
  apply list_find_Some in Hf as (Hi%lookup_lt_Some & _). lia.
Qed.

Lemma indexOf_snoc_fresh (l : list string) (x : string) :
  x ∉ l → indexOf (l ++ [x]) x = Z.of_nat (length l).
Proof.
  intros Hx. unfold indexOf.
  rewrite list_find_app_r.
  - simpl. by rewrite decide_True by done.
  - apply list_find_None, Forall_forall. by intros y Hy ->.
Qed.

Lemma first_occurrences_snoc (l : list string) (x : string) :
  first_occurrences (l ++ [x])
  = first_occurrences l ++ (if decide (x ∈ l) then [] else [x]).
Proof.
  unfold first_occurrences.
  rewrite imap_app, filter_app, fmap_app. f_equal.
  - f_equal. apply filter_iff_elem. intros [i y] Hiy.
    apply elem_of_lookup_imap in Hiy as (j & z & [= -> ->] & Hj).
    simpl. rewrite indexOf_app_l; [done|]. by eapply list_elem_of_lookup_2.
  - simpl. rewrite filter_cons, filter_nil. simpl.
    rewrite Nat.add_0_r.
    destruct (decide (x ∈ l)) as [Hx|Hx].
    + rewrite decide_False; [done|].
      rewrite indexOf_app_l by done. pose proof (indexOf_lt l x). lia.
    + rewrite decide_True; [done|]. by apply indexOf_snoc_fresh.
Qed.

Lemma first_occurrences_size (l : list string) :
  length (first_occurrences l) = size (list_to_set l : gset string).
Proof.
  induction l as [|x l IH] using rev_ind; [done|].
  rewrite first_occurrences_snoc, length_app, IH, list_to_set_snoc_L.
  destruct (decide (x ∈ l)) as [Hx|Hx]; simpl.
  - rewrite Nat.add_0_r. f_equal. rewrite (comm_L (∪)).
    symmetry. apply subseteq_union_1_L, singleton_subseteq_l.
    by apply elem_of_list_to_set.
  - rewrite size_union.
    + by rewrite size_singleton.
    + apply disjoint_singleton_r. by rewrite elem_of_list_to_set.
Qed.

End FirstOccurrences.

(** X24. The streak shown on the dashboard is the number of distinct
    calendar days among the last visits of all records, capped at 7: it
    takes no account of whether the days are consecutive or recent, it lies
    between 0 and 7 and is at most the number of records, and records that
    were all last visited on the same day give a streak of 1. *)
Theorem X24_streak_counts_distinct_days (toDateString : Date → string)
    (progress : LearningProgress) :
  let days := (λ p, toDateString (lastVisited p)) <$> Object_values progress in
  getStreakDays toDateString progress
  = Z.min (Z.of_nat (size (list_to_set days : gset string))) 7
  ∧ (0 ≤ getStreakDays toDateString progress ≤ 7)%Z
  ∧ (getStreakDays toDateString progress ≤ Z.of_nat (size progress))%Z
  ∧ (∀ day, progress ≠ ∅ →
        (∀ h r, progress !! h = Some r → toDateString (lastVisited r) = day) →
        getStreakDays toDateString progress = 1%Z).
Proof.
  intros days.
  assert (getStreakDays toDateString progress
          = Z.min (Z.of_nat (size (list_to_set days : gset string))) 7)
    as Heq.
  { unfold getStreakDays. cbv zeta. by rewrite first_occurrences_size. }
  assert (size (list_to_set days : gset string) ≤ size progress) as Hle.
  { rewrite <- first_occurrences_size. unfold first_occurrences.
    rewrite length_fmap.
    etrans; [apply length_filter|].
    rewrite length_imap. unfold days, Object_values.
    by rewrite !length_fmap, length_map_to_list. }
  split; [exact Heq|]. split; [lia|]. split; [lia|].
  intros day Hne Hday. rewrite Heq.
  assert ((list_to_set days : gset string) = {[ day ]}) as ->.
  { apply set_eq. intros d.
    rewrite elem_of_list_to_set, elem_of_singleton.
    unfold days, Object_values. rewrite list_elem_of_fmap. split.
    - intros (r & -> & Hr). apply list_elem_of_fmap in Hr as ([h r'] & -> & Hr).
      apply elem_of_map_to_list in Hr. by eapply Hday.
    - intros ->. destruct (map_choose progress Hne) as (h & r & Hr).
      exists r. split; [symmetry; by eapply Hday|].
      apply list_elem_of_fmap. exists (h, r). split; [done|].
      by apply elem_of_map_to_list. }
  by rewrite size_singleton.
Qed.

(** X24 on three topics opened on two days. *)
Lemma X24_streak_counts_distinct_days_witness :
  getStreakDays utc_day three_visits = 2%Z
  ∧ getStreakDays utc_day (run [(5%Z, Open "useState"); (6%Z, Open "useRef")] ∅)
    = 1%Z.
Proof.
  split.
  - rewrite (proj1 (X24_streak_counts_distinct_days utc_day three_visits)).
    by vm_compute.
  - apply (proj2 (proj2 (proj2
             (X24_streak_counts_distinct_days utc_day
                (run [(5%Z, Open "useState"); (6%Z, Open "useRef")] ∅))))
             "0").
    + by vm_compute.
    + intros h r Hr.
      destruct (decide (h = "useState")) as [->|H1];
        [by vm_compute in Hr; injection Hr as <-|].
      destruct (decide (h = "useRef")) as [->|H2];
        [by vm_compute in Hr; injection Hr as <-|].
      unfold run in Hr. simpl in Hr. unfold effect_open in Hr.
      simpl in Hr. unfold updateProgress in Hr.
      rewrite !lookup_insert_ne in Hr by done. by rewrite lookup_empty in Hr.
Defined.
